(** * Pepr admission processor: a shallow embedding of [processor]

    The subject is the function [processor] of the module that imports
    [compare] from fast-json-patch, [shouldSkipRequest] from the filter and
    [RequestWrapper] from the request module.  The function walks the
    capabilities and their bindings, stamps a tracking annotation on the
    working copy of the inbound object, runs the callback of every binding
    the filter lets through, and finally diffs the inbound object against
    the working copy.

    JavaScript objects are mutable and shared by reference: the processor
    keeps the [metadata] object it read before a callback and writes to it
    after the callback.  The embedding therefore keeps an explicit store of
    objects and lets a callback be any transformer of that store. *)

From stdpp Require Import base strings list pretty.

Local Open Scope string_scope.
Local Open Scope list_scope.
Set Warnings "-register-all".

(** ** JSON documents (the inbound [object], and what the diff reads) *)

Inductive Json :=
| JUndefined
| JNull
| JBool (b : bool)
| JNumber (n : Z)
| JString (s : string)
| JArray (items : list Json)
| JObject (members : list (string * Json)).

(** ** The store of JavaScript objects *)

Definition loc := nat.

Inductive value :=
| VUndefined
| VNull
| VBool (b : bool)
| VNumber (n : Z)
| VString (s : string)
| VRef (l : loc).

(** An object is its own properties in insertion order; an array carries its
    items besides ([elems] is [Some] exactly for arrays).  The processor only
    reads and writes properties whose keys are not array indices. *)
Record object := mkObject {
  elems : option (list value);
  props : list (string * value)
}.

Abbreviation heap := (list object).

Definition empty_object : object := {| elems := None; props := [] |}.

Fixpoint assoc_get {A} (k : string) (kvs : list (string * A)) : option A :=
  match kvs with
  | [] => None
  | (k', v) :: rest => if String.eqb k k' then Some v else assoc_get k rest
  end.

(** Assignment keeps the position of an existing key and appends a new one. *)
Fixpoint assoc_set {A} (k : string) (v : A) (kvs : list (string * A))
  : list (string * A) :=
  match kvs with
  | [] => [(k, v)]
  | (k', v') :: rest =>
      if String.eqb k k' then (k, v) :: rest else (k', v') :: assoc_set k v rest
  end.

(** Errors are carried by the text a template literal renders them to. *)
Definition error := string.

Definition TypeError (msg : string) : error := "TypeError: " +:+ msg.

(** [v[k]] *)
Definition get_prop (h : heap) (v : value) (k : string) : error + value :=
  match v with
  | VUndefined =>
      inl (TypeError ("Cannot read properties of undefined (reading '" +:+ k +:+ "')"))
  | VNull =>
      inl (TypeError ("Cannot read properties of null (reading '" +:+ k +:+ "')"))
  | VRef l =>
      match h !! l with
      | Some o => inr (default VUndefined (assoc_get k (props o)))
      | None => inl (TypeError "reference to no object")
      end
  | _ => inr VUndefined
  end.

(** [v[k] = x], in strict mode: assigning to a property of a primitive throws. *)
Definition set_prop (h : heap) (v : value) (k : string) (x : value) : error + heap :=
  match v with
  | VUndefined =>
      inl (TypeError ("Cannot set properties of undefined (setting '" +:+ k +:+ "')"))
  | VNull =>
      inl (TypeError ("Cannot set properties of null (setting '" +:+ k +:+ "')"))
  | VRef l =>
      match h !! l with
      | Some o =>
          inr (<[l := {| elems := elems o; props := assoc_set k x (props o) |}]> h)
      | None => inl (TypeError "reference to no object")
      end
  | _ => inl (TypeError ("Cannot create property '" +:+ k +:+ "' on a primitive"))
  end.

(** Truthiness, as [||] tests it. *)
Definition truthy (v : value) : bool :=
  match v with
  | VUndefined | VNull => false
  | VBool b => b
  | VNumber n => negb (Z.eqb n 0)
  | VString s => negb (String.eqb s "")
  | VRef _ => true
  end.

(** [{}]: a fresh object at the end of the store. *)
Definition alloc (h : heap) (o : object) : heap * value :=
  (h ++ [o], VRef (length h)).

(** *** Documents in the store *)

(** Building a document allocates the children before their parent. *)
Definition alloc_all {A B} (f : A -> heap -> heap * B)
  : list A -> heap -> heap * list B :=
  fix go (xs : list A) (h : heap) : heap * list B :=
    match xs with
    | [] => (h, [])
    | x :: rest =>
        let '(h1, v) := f x h in
        let '(h2, vs) := go rest h1 in
        (h2, v :: vs)
    end.

Fixpoint alloc_json (j : Json) (h : heap) : heap * value :=
  match j with
  | JUndefined => (h, VUndefined)
  | JNull => (h, VNull)
  | JBool b => (h, VBool b)
  | JNumber n => (h, VNumber n)
  | JString s => (h, VString s)
  | JArray items =>
      let '(h', vs) := alloc_all alloc_json items h in
      alloc h' {| elems := Some vs; props := [] |}
  | JObject members =>
      let '(h', kvs) :=
        alloc_all (fun (kv : string * Json) (h : heap) =>
                     let '(k, j) := kv in
                     let '(h1, v) := alloc_json j h in
                     (h1, (k, v))) members h in
      alloc h' {| elems := None; props := kvs |}
  end.

(** Reading a document back follows references; [fuel] bounds the nesting. *)
Fixpoint to_json_fuel (fuel : nat) (h : heap) (v : value) : option Json :=
  match fuel with
  | O => None
  | S fuel =>
      match v with
      | VUndefined => Some JUndefined
      | VNull => Some JNull
      | VBool b => Some (JBool b)
      | VNumber n => Some (JNumber n)
      | VString s => Some (JString s)
      | VRef l =>
          match h !! l with
          | None => None
          | Some o =>
              match elems o with
              | Some vs => JArray <$> mapM (to_json_fuel fuel h) vs
              | None =>
                  JObject <$>
                    mapM (fun kv : string * value =>
                            pair kv.1 <$> to_json_fuel fuel h kv.2) (props o)
              end
          end
      end
  end.

(** A chain of references without a repetition visits every object at most
    once, so [S (length h)] levels suffice for every document that is a finite
    tree; only a cyclic structure (or a dangling reference) yields [None]. *)
Definition to_json (h : heap) (v : value) : option Json :=
  to_json_fuel (S (length h)) h v.

(** ** The data model *)

Module GroupVersionKind.
Record t := mk {
  group : string;
  version : string;      (* optional in the source: the empty string when absent *)
  kind : string
}.
End GroupVersionKind.

Inductive Operation := CREATE | UPDATE | DELETE | CONNECT.

(** The event a capability action is registered for. *)
Inductive Event := Create | Update | Delete | CreateOrUpdate.

Module Request.
Record t := mk {
  uid : string;
  kind : GroupVersionKind.t;
  name : string;
  namespace : string;    (* empty for cluster-scoped resources *)
  operation : Operation;
  object : Json;         (* [JUndefined] when absent *)
  oldObject : Json
}.
End Request.

Module Response.
Record t := mk {
  uid : string;
  patchType : string;
  warnings : list string;
  allowed : bool;
  result : option string;
  patch : option string
}.
End Response.

(** What a callback holds: the store and the wrapper's [Raw] field. *)
Record Wrapper := mkWrapper {
  store : heap;
  Raw : value
}.

(** A capability action receives the wrapper, may change the store and [Raw]
    in any way, and either returns or throws; what it did before throwing
    stays done. *)
Definition CapabilityAction := Wrapper -> Wrapper * option error.

Record Filters := mkFilters {
  namespaces : list string;
  labels : list (string * string);
  annotations : list (string * string)
}.

Module Binding.
Record t := mk {
  event : option Event;
  kind : GroupVersionKind.t;
  filters : Filters;
  callback : CapabilityAction
}.
End Binding.

Module Capability.
Record t := mk {
  name : string;
  description : string;
  namespaces : list string;   (* [CapabilityCfg.namespaces], empty when absent *)
  bindings : list Binding.t
}.
End Capability.

Record ModuleIgnore := mkModuleIgnore {
  ignore_kinds : list GroupVersionKind.t;
  ignore_namespaces : list string;
  ignore_labels : list (list (string * string))
}.

Module ModuleConfig.
Record t := mk {
  id : string;
  description : string;
  alwaysIgnore : ModuleIgnore;
  rejectOnError : bool
}.
End ModuleConfig.

(** Modelled from the spec: the constructor of the request wrapper is not among
    the sources.  "Retains original = request.object and exposes Raw, a deep
    clone that callbacks freely mutate": the clone is built in a store of its
    own, so no callback reaches the inbound object. *)
Definition RequestWrapper (req : Request.t) : Wrapper :=
  let '(h, v) := alloc_json (Request.object req) [] in
  {| store := h; Raw := v |}.

(** ** JSON Patch documents and their serialization *)

(** An operation object as fast-json-patch builds it; [path] is a JSON
    Pointer. *)
Inductive PatchOperation :=
| OpAdd (path : string) (v : Json)
| OpRemove (path : string)
| OpReplace (path : string) (v : Json)
| OpMove (from path : string)
| OpCopy (from path : string)
| OpTest (path : string) (v : Json).

Definition dquote : string := String (Ascii.ascii_of_nat 34) "".
Definition backslash : string := String (Ascii.ascii_of_nat 92) "".

Definition hex_digit (n : nat) : string :=
  String (Ascii.ascii_of_nat (if Nat.ltb n 10 then 48 + n else 87 + n)) "".

Definition escape_char (c : Ascii.ascii) : string :=
  let n := Ascii.nat_of_ascii c in
  if Nat.eqb n 34 then backslash +:+ dquote
  else if Nat.eqb n 92 then backslash +:+ backslash
  else if Nat.eqb n 8 then backslash +:+ "b"
  else if Nat.eqb n 9 then backslash +:+ "t"
  else if Nat.eqb n 10 then backslash +:+ "n"
  else if Nat.eqb n 12 then backslash +:+ "f"
  else if Nat.eqb n 13 then backslash +:+ "r"
  else if Nat.ltb n 32 then
    backslash +:+ "u00" +:+ hex_digit (n / 16) +:+ hex_digit (n mod 16)
  else String c "".

Fixpoint escape (s : string) : string :=
  match s with
  | EmptyString => ""
  | String c rest => escape_char c +:+ escape rest
  end.

Definition quoted (s : string) : string := dquote +:+ escape s +:+ dquote.

Fixpoint join (sep : string) (parts : list string) : string :=
  match parts with
  | [] => ""
  | [p] => p
  | p :: rest => p +:+ sep +:+ join sep rest
  end.

(** [JSON.stringify] of a value: nothing for [undefined] on its own, [null]
    for it inside an array, and a member holding it is left out. *)
Fixpoint stringify (j : Json) : option string :=
  match j with
  | JUndefined => None
  | JNull => Some "null"
  | JBool b => Some (if b then "true" else "false")
  | JNumber n => Some (pretty n)
  | JString s => Some (quoted s)
  | JArray items =>
      Some ("[" +:+
            join "," ((fix go (js : list Json) : list string :=
                         match js with
                         | [] => []
                         | j :: rest => default "null" (stringify j) :: go rest
                         end) items) +:+ "]")
  | JObject members =>
      Some ("{" +:+
            join "," ((fix go (ms : list (string * Json)) : list string :=
                         match ms with
                         | [] => []
                         | (k, j) :: rest =>
                             match stringify j with
                             | Some s => (quoted k +:+ ":" +:+ s) :: go rest
                             | None => go rest
                             end
                         end) members) +:+ "}")
  end.

Definition operation_json (op : PatchOperation) : Json :=
  match op with
  | OpAdd p v => JObject [("op", JString "add"); ("path", JString p); ("value", v)]
  | OpRemove p => JObject [("op", JString "remove"); ("path", JString p)]
  | OpReplace p v =>
      JObject [("op", JString "replace"); ("path", JString p); ("value", v)]
  | OpMove f p => JObject [("op", JString "move"); ("from", JString f); ("path", JString p)]
  | OpCopy f p => JObject [("op", JString "copy"); ("from", JString f); ("path", JString p)]
  | OpTest p v => JObject [("op", JString "test"); ("path", JString p); ("value", v)]
  end.

(** [JSON.stringify(patches)] for the array of operations. *)
Definition JSON_stringify (patches : list PatchOperation) : string :=
  default "" (stringify (JArray (operation_json <$> patches))).

(** ** Executions of the processor *)

(** What the run leaves behind besides the response.  [EvCall] and [EvStamp]
    record the history (which callback was invoked and how it ended, which
    annotation write completed); nothing in the processor reads them. *)
Inductive Level := LInfo | LWarn | LError | LDebug.

Inductive Entry :=
| EvLog (level : Level) (message : string) (prefix : option string)
| EvStamp (identifier status : string)
| EvCall (capability : string) (action : Binding.t) (failure : option error).

Record PState := mkPState {
  wrapped : Wrapper;
  response : Response.t;
  trace : list Entry
}.

(** How a statement ends: normally, by [return response], or by a throw. *)
Inductive Completion (A : Type) :=
| Normal (a : A)
| Return (r : Response.t)
| Throw (e : error).
Arguments Normal {A} a.
Arguments Return {A} r.
Arguments Throw {A} e.

Definition Exec (A : Type) : Type := PState -> Completion A * PState.

Definition exec_ret {A} (a : A) : Exec A := fun st => (Normal a, st).

Definition exec_bind {A B} (m : Exec A) (f : A -> Exec B) : Exec B :=
  fun st =>
    match m st with
    | (Normal a, st') => f a st'
    | (Return r, st') => (Return r, st')
    | (Throw e, st') => (Throw e, st')
    end.

Notation "x <- m ;; k" := (exec_bind m (fun x => k))
  (at level 100, m at next level, right associativity).
Notation "m ;;; k" := (exec_bind m (fun _ => k))
  (at level 100, right associativity).

(** [try { body } catch (e) { handler }] *)
Definition try_catch {A} (body : Exec A) (handler : error -> Exec A) : Exec A :=
  fun st =>
    match body st with
    | (Throw e, st') => handler e st'
    | other => other
    end.

(** [for (const x of xs) { body }] *)
Fixpoint for_of {A} (xs : list A) (body : A -> Exec unit) : Exec unit :=
  match xs with
  | [] => exec_ret tt
  | x :: rest => body x ;;; for_of rest body
  end.

Definition throw {A} (e : error) : Exec A := fun st => (Throw e, st).

Definition lift {A} (r : error + A) : Exec A :=
  match r with inl e => throw e | inr a => exec_ret a end.

Definition set_wrapped (w : Wrapper) (st : PState) : PState :=
  {| wrapped := w; response := response st; trace := trace st |}.
Definition set_response (r : Response.t) (st : PState) : PState :=
  {| wrapped := wrapped st; response := r; trace := trace st |}.
Definition record (ev : Entry) (st : PState) : PState :=
  {| wrapped := wrapped st; response := response st; trace := trace st ++ [ev] |}.

Definition logger (level : Level) (message : string) (prefix : option string)
  : Exec unit :=
  fun st => (Normal tt, record (EvLog level message prefix) st).

(** [wrapped.Raw] *)
Definition read_Raw : Exec value := fun st => (Normal (Raw (wrapped st)), st).

(** [v[k]] *)
Definition get_field (v : value) (k : string) : Exec value :=
  fun st => lift (get_prop (store (wrapped st)) v k) st.

(** [v[k] = x] *)
Definition set_field (v : value) (k : string) (x : value) : Exec unit :=
  fun st =>
    match set_prop (store (wrapped st)) v k x with
    | inl e => (Throw e, st)
    | inr h => (Normal tt, set_wrapped {| store := h; Raw := Raw (wrapped st) |} st)
    end.

(** [{}] *)
Definition new_object : Exec value :=
  fun st =>
    let '(h, v) := alloc (store (wrapped st)) empty_object in
    (Normal v, set_wrapped {| store := h; Raw := Raw (wrapped st) |} st).

(** [metadata.annotations[identifier] = status] *)
Definition stamp (metadata : value) (identifier status : string) : Exec unit :=
  a <- get_field metadata "annotations" ;;
  set_field a identifier (VString status) ;;;
  (fun st => (Normal tt, record (EvStamp identifier status) st)).

(** [action.callback(wrapped)] *)
Definition invoke (capability : string) (action : Binding.t) : Exec unit :=
  fun st =>
    let '(w, failure) := Binding.callback action (wrapped st) in
    let st' := record (EvCall capability action failure) (set_wrapped w st) in
    match failure with
    | None => (Normal tt, st')
    | Some e => (Throw e, st')
    end.

Definition update_response (f : Response.t -> Response.t) : Exec unit :=
  fun st => (Normal tt, set_response (f (response st)) st).

(** [response.warnings.push(w)] *)
Definition push_warning (w : string) : Exec unit :=
  update_response (fun r =>
    Response.mk (Response.uid r) (Response.patchType r) (Response.warnings r ++ [w])
                (Response.allowed r) (Response.result r) (Response.patch r)).

(** [response.result = s] *)
Definition set_result (s : string) : Exec unit :=
  update_response (fun r =>
    Response.mk (Response.uid r) (Response.patchType r) (Response.warnings r)
                (Response.allowed r) (Some s) (Response.patch r)).

(** [response.allowed = b] *)
Definition set_allowed (b : bool) : Exec unit :=
  update_response (fun r =>
    Response.mk (Response.uid r) (Response.patchType r) (Response.warnings r)
                b (Response.result r) (Response.patch r)).

(** [response.patch = s] *)
Definition set_patch (s : string) : Exec unit :=
  update_response (fun r =>
    Response.mk (Response.uid r) (Response.patchType r) (Response.warnings r)
                (Response.allowed r) (Response.result r) (Some s)).

(** [return response] *)
Definition return_response {A} : Exec A :=
  fun st => (Return (response st), st).

(** ** The processor *)

Section Processor.

(** The filter and the diff library are imported by the processor and are not
    among the sources; the processor is modelled for any filter and any diff,
    and a diff may throw. *)
Variable shouldSkipRequest : Binding.t -> Request.t -> bool.
Variable compare : Json -> Json -> error + list PatchOperation.

(** [compare(req.object, wrapped.Raw)]: the diff walks [Raw] as a document and
    clones what it copies into the patch, which throws on a cyclic
    structure. *)
Definition diff (original : Json) : Exec (list PatchOperation) :=
  fun st =>
    match to_json (store (wrapped st)) (Raw (wrapped st)) with
    | None => (Throw (TypeError "Converting circular structure to JSON"), st)
    | Some doc => lift (compare original doc) st
    end.

(** The body of the inner loop, for one binding of the capability [name]. *)
Definition process_binding (config : ModuleConfig.t) (req : Request.t)
    (name prefix : string) (action : Binding.t) : Exec unit :=
  if shouldSkipRequest action req then exec_ret tt
  else
    logger LInfo
      ("Processing matched action " +:+ GroupVersionKind.kind (Binding.kind action))
      (Some prefix) ;;;
    raw <- read_Raw ;;
    metadata <- get_field raw "metadata" ;;
    let identifier := "pepr.dev/" +:+ ModuleConfig.id config +:+ "/" +:+ name in
    a <- get_field metadata "annotations" ;;
    a' <- (if truthy a then exec_ret a else new_object) ;;
    set_field metadata "annotations" a' ;;;
    stamp metadata identifier "started" ;;;
    try_catch
      (invoke name action ;;;
       stamp metadata identifier "succeeded")
      (fun e =>
         push_warning ("Action failed: " +:+ e) ;;;
         if ModuleConfig.rejectOnError config then
           logger LError ("Action failed: " +:+ e) (Some prefix) ;;;
           set_result "Pepr module configured to reject on error" ;;;
           return_response
         else
           logger LWarn ("Action failed: " +:+ e) (Some prefix) ;;;
           stamp metadata identifier "warning").

(** The body of the outer loop. *)
Definition process_capability (config : ModuleConfig.t) (req : Request.t)
    (capability : Capability.t) : Exec unit :=
  let name := Capability.name capability in
  let prefix := Request.uid req +:+ " " +:+ Request.name req +:+ ": " +:+ name in
  logger LInfo ("Processing capability " +:+ name) (Some prefix) ;;;
  for_of (Capability.bindings capability) (process_binding config req name prefix).

Definition processor_body (config : ModuleConfig.t)
    (capabilities : list Capability.t) (req : Request.t) : Exec unit :=
  logger LInfo
    ("Processing '" +:+ Request.uid req +:+ "' for '" +:+
     GroupVersionKind.kind (Request.kind req) +:+ "' '" +:+ Request.name req +:+ "'")
    None ;;;
  for_of capabilities (process_capability config req) ;;;
  set_allowed true ;;;
  patches <- diff (Request.object req) ;;
  set_patch (JSON_stringify patches) ;;;
  logger LDebug (JSON_stringify patches) None ;;;
  return_response.

Definition initial_state (req : Request.t) : PState :=
  {| wrapped := RequestWrapper req;
     response := {| Response.uid := Request.uid req;
                    Response.patchType := "JSONPatch";
                    Response.warnings := [];
                    Response.allowed := false;
                    Response.result := None;
                    Response.patch := None |};
     trace := [] |}.

(** One run: how it ended, and the state it left. *)
Definition processor_run (config : ModuleConfig.t)
    (capabilities : list Capability.t) (req : Request.t)
  : Completion unit * PState :=
  processor_body config capabilities req (initial_state req).

(** What the caller gets: the response, or the error that escaped. *)
Definition processor (config : ModuleConfig.t)
    (capabilities : list Capability.t) (req : Request.t) : error + Response.t :=
  match processor_run config capabilities req with
  | (Return r, _) => inr r
  | (Throw e, _) => inl e
  | (Normal _, st) => inr (response st)
  end.

End Processor.

(** ** The filter *)

Definition json_member (k : string) (j : Json) : Json :=
  match j with
  | JObject members => default JUndefined (assoc_get k members)
  | _ => JUndefined
  end.

(** The string-valued members of an object (a label or annotation map). *)
Definition string_members (j : Json) : list (string * string) :=
  match j with
  | JObject members =>
      omap (fun kv : string * Json =>
              match kv.2 with JString s => Some (kv.1, s) | _ => None end) members
  | _ => []
  end.

Definition string_in (s : string) (set : list string) : bool :=
  existsb (String.eqb s) set.

(** "Cluster-scoped resources have an empty request namespace;
    namespace-filtering steps treat empty as not in any set." *)
Definition namespace_in (ns : string) (set : list string) : bool :=
  negb (String.eqb ns "") && string_in ns set.

Definition event_mismatch (event : option Event) (op : Operation) : bool :=
  match event, op with
  | Some Create, CREATE => false
  | Some Update, UPDATE => false
  | Some Delete, DELETE => false
  | Some CreateOrUpdate, (CREATE | UPDATE) => false
  | _, _ => true
  end.

(** An empty group or version on the pattern matches any. *)
Definition kind_matches (pattern actual : GroupVersionKind.t) : bool :=
  String.eqb (GroupVersionKind.kind pattern) (GroupVersionKind.kind actual)
  && (String.eqb (GroupVersionKind.group pattern) ""
      || String.eqb (GroupVersionKind.group pattern) (GroupVersionKind.group actual))
  && (String.eqb (GroupVersionKind.version pattern) ""
      || String.eqb (GroupVersionKind.version pattern) (GroupVersionKind.version actual)).

(** Every pair of the matcher is among the stored pairs. *)
Definition has_all_pairs (matcher stored : list (string * string)) : bool :=
  forallb (fun kv : string * string =>
             match assoc_get kv.1 stored with
             | Some v => String.eqb v kv.2
             | None => false
             end) matcher.

(** The key must be present; a non-empty value must be the stored one. *)
Definition selector_mismatch (wanted stored : list (string * string)) : bool :=
  negb (forallb (fun kv : string * string =>
                   match assoc_get kv.1 stored with
                   | Some v => String.eqb kv.2 "" || String.eqb v kv.2
                   | None => false
                   end) wanted).

(** Modelled from the spec: the filter module is not among the sources.  This
    is the algorithm of the spec's section 4.1, its eight conditions in order;
    any one of them skips the binding.  A DELETE request carries [oldObject],
    whose metadata the conditions then read.  A binding with no event matches
    no operation. *)
Definition shouldSkip (ignore : ModuleIgnore) (binding : Binding.t)
    (req : Request.t) : bool :=
  let subject :=
    match Request.operation req with
    | DELETE => Request.oldObject req
    | _ => Request.object req
    end in
  let metadata := json_member "metadata" subject in
  let obj_labels := string_members (json_member "labels" metadata) in
  let obj_annotations := string_members (json_member "annotations" metadata) in
  event_mismatch (Binding.event binding) (Request.operation req)
  || existsb (fun k => kind_matches k (Request.kind req)) (ignore_kinds ignore)
  || namespace_in (Request.namespace req) (ignore_namespaces ignore)
  || existsb (fun m => has_all_pairs m obj_labels) (ignore_labels ignore)
  || negb (kind_matches (Binding.kind binding) (Request.kind req))
  || (negb (Nat.eqb (length (namespaces (Binding.filters binding))) 0)
      && negb (namespace_in (Request.namespace req)
                 (namespaces (Binding.filters binding))))
  || selector_mismatch (labels (Binding.filters binding)) obj_labels
  || selector_mismatch (annotations (Binding.filters binding)) obj_annotations.

(** ** A diff for the worked examples *)

(** [escapePathComponent]: [~] becomes [~0] and [/] becomes [~1]. *)
Fixpoint escapePathComponent (s : string) : string :=
  match s with
  | EmptyString => ""
  | String c rest =>
      (if Nat.eqb (Ascii.nat_of_ascii c) 126 then "~0"
       else if Nat.eqb (Ascii.nat_of_ascii c) 47 then "~1"
       else String c "") +:+ escapePathComponent rest
  end.

Definition is_undefined (j : Json) : bool :=
  match j with JUndefined => true | _ => false end.

(** Equality of documents as trees. *)
Fixpoint json_eqb (a b : Json) : bool :=
  match a, b with
  | JUndefined, JUndefined => true
  | JNull, JNull => true
  | JBool x, JBool y => Bool.eqb x y
  | JNumber x, JNumber y => Z.eqb x y
  | JString x, JString y => String.eqb x y
  | JArray xs, JArray ys =>
      (fix go (xs ys : list Json) : bool :=
         match xs, ys with
         | [], [] => true
         | x :: xs, y :: ys => json_eqb x y && go xs ys
         | _, _ => false
         end) xs ys
  | JObject xs, JObject ys =>
      (fix go (xs ys : list (string * Json)) : bool :=
         match xs, ys with
         | [], [] => true
         | (k, x) :: xs, (k', y) :: ys => String.eqb k k' && json_eqb x y && go xs ys
         | _, _ => false
         end) xs ys
  | _, _ => false
  end.

(** An instance of the diff, for the worked examples only: no theorem about
    the processor depends on it.  Objects are walked the way fast-json-patch
    walks them (old keys last to first: recurse, or remove what is gone; then
    the new keys in order: add what is new); a value that is not an object is
    replaced as a whole when it differs. *)
Fixpoint generate (mirror obj : Json) (path : string) : list PatchOperation :=
  match mirror, obj with
  | JObject old, JObject new =>
      let '(changes, deleted) :=
        (fix walk (ms : list (string * Json)) : list PatchOperation * bool :=
           match ms with
           | [] => ([], false)
           | (k, oldVal) :: rest =>
               let '(later, deleted) := walk rest in
               let here := path +:+ "/" +:+ escapePathComponent k in
               match assoc_get k new with
               | Some newVal =>
                   if is_undefined newVal && negb (is_undefined oldVal)
                   then (later ++ [OpRemove here], true)
                   else (later ++ generate oldVal newVal here, deleted)
               | None => (later ++ [OpRemove here], true)
               end
           end) old in
      if negb deleted && Nat.eqb (length new) (length old) then changes
      else
        changes ++
        omap (fun kv : string * Json =>
                if bool_decide (assoc_get kv.1 old = None :> option Json)
                   && negb (is_undefined kv.2)
                then Some (OpAdd (path +:+ "/" +:+ escapePathComponent kv.1) kv.2)
                else None) new
  | _, _ => if json_eqb mirror obj then [] else [OpReplace path obj]
  end.

Definition reference_compare (tree1 tree2 : Json) : error + list PatchOperation :=
  inr (generate tree1 tree2 "").

(** ** The history of a run *)

(** What a stamp does to the store; it throws when [metadata] holds no
    annotation map any more. *)
Definition stamp_store (h : heap) (metadata : value) (identifier status : string)
  : error + heap :=
  match get_prop h metadata "annotations" with
  | inl e => inl e
  | inr a => set_prop h a identifier (VString status)
  end.

(** The callbacks that threw. *)
Fixpoint failed_callbacks (tr : list Entry) : nat :=
  match tr with
  | [] => 0
  | EvCall _ _ (Some _) :: rest => S (failed_callbacks rest)
  | _ :: rest => failed_callbacks rest
  end.

(** The callbacks that were invoked. *)
Fixpoint invoked_callbacks (tr : list Entry) : nat :=
  match tr with
  | [] => 0
  | EvCall _ _ _ :: rest => S (invoked_callbacks rest)
  | _ :: rest => invoked_callbacks rest
  end.

(** The warnings that report a failed action. *)
Definition action_failed_warnings (ws : list string) : nat :=
  length (List.filter (String.prefix "Action failed") ws).
Arguments action_failed_warnings : simpl never.

Definition reject_message : string := "Pepr module configured to reject on error".

(** The annotation key of a capability. *)
Definition identifier_of (config : ModuleConfig.t) (name : string) : string :=
  "pepr.dev/" +:+ ModuleConfig.id config +:+ "/" +:+ name.

(** ** Documents: structural equality and size *)




(** ** Outcomes of executions *)

(** [wp m Q st]: running [m] from [st] ends in a completion and a state that
    satisfy [Q]. *)
Definition wp {A} (m : Exec A) (Q : Completion A -> PState -> Prop)
    (st : PState) : Prop :=
  Q (m st).1 (m st).2.

(** A postcondition given by cases on the completion. *)
Definition post {A} (N : A -> PState -> Prop) (R : Response.t -> PState -> Prop)
    (T : error -> PState -> Prop) (c : Completion A) (st : PState) : Prop :=
  match c with
  | Normal a => N a st
  | Return r => R r st
  | Throw e => T e st
  end.



Section Outcomes.

Variable shouldSkipRequest : Binding.t -> Request.t -> bool.
Variable compare : Json -> Json -> error + list PatchOperation.
Variable config : ModuleConfig.t.
Variable req : Request.t.

(** The two loops of the processor, before the patch is computed. *)
Definition dispatch (capabilities : list Capability.t) : Exec unit :=
  logger LInfo
    ("Processing '" +:+ Request.uid req +:+ "' for '" +:+
     GroupVersionKind.kind (Request.kind req) +:+ "' '" +:+ Request.name req +:+ "'")
    None ;;;
  for_of capabilities (process_capability shouldSkipRequest config req).

(** What follows the loops. *)
Definition finish : Exec unit :=
  set_allowed true ;;;
  patches <- diff compare (Request.object req) ;;
  set_patch (JSON_stringify patches) ;;;
  logger LDebug (JSON_stringify patches) None ;;;
  return_response.

(** Between two bindings: nothing is decided yet, and every warning so far
    stands for a callback that threw and was let pass. *)
Definition loop_inv (st : PState) : Prop :=
  Response.uid (response st) = Request.uid req /\
  Response.patchType (response st) = "JSONPatch" /\
  Response.allowed (response st) = false /\
  Response.result (response st) = None /\
  Response.patch (response st) = None /\
  action_failed_warnings (Response.warnings (response st)) = failed_callbacks (trace st) /\
  length (Response.warnings (response st)) = failed_callbacks (trace st) /\
  (ModuleConfig.rejectOnError config = true -> failed_callbacks (trace st) = 0).

(** After [return response] in the catch block. *)
Definition rejected (r : Response.t) (st : PState) : Prop :=
  r = response st /\
  ModuleConfig.rejectOnError config = true /\
  Response.uid r = Request.uid req /\
  Response.patchType r = "JSONPatch" /\
  Response.allowed r = false /\
  Response.result r = Some reject_message /\
  Response.patch r = None /\
  length (Response.warnings r) = 1 /\
  exists tr name action failure message prefix,
    trace st = tr ++ [EvCall name action failure; EvLog LError message prefix] /\
    failed_callbacks tr = 0.

(** After a throw that nothing caught. *)
Definition escaped (e : error) (st : PState) : Prop :=
  Response.allowed (response st) = false /\
  (ModuleConfig.rejectOnError config = true -> failed_callbacks (trace st) = 0).

(** After the final [return response]. *)
Definition answered (r : Response.t) (st : PState) : Prop :=
  r = response st /\
  Response.uid r = Request.uid req /\
  Response.patchType r = "JSONPatch" /\
  Response.allowed r = true /\
  Response.result r = None /\
  action_failed_warnings (Response.warnings r) = failed_callbacks (trace st) /\
  length (Response.warnings r) = failed_callbacks (trace st) /\
  (ModuleConfig.rejectOnError config = true -> failed_callbacks (trace st) = 0) /\
  exists doc patches,
    to_json (store (wrapped st)) (Raw (wrapped st)) = Some doc /\
    compare (Request.object req) doc = inr patches /\
    Response.patch r = Some (JSON_stringify patches).

(** After a throw of the diff. *)
Definition diff_escaped (e : error) (st : PState) : Prop :=
  Response.allowed (response st) = true /\
  Response.patch (response st) = None /\
  (ModuleConfig.rejectOnError config = true -> failed_callbacks (trace st) = 0) /\
  diff compare (Request.object req) st = (Throw e, st).

(** Every run ends in one of four ways; it never falls off the end. *)
Definition run_post (c : Completion unit) (st : PState) : Prop :=
  post (fun _ _ => False)
       (fun r st => rejected r st \/ answered r st)
       (fun e st => escaped e st \/ diff_escaped e st) c st.





End Outcomes.

(** ** Worked inputs *)

(** A callback written with the operations of the processor itself. *)
Definition action_of (m : Exec unit) : CapabilityAction :=
  fun w =>
    let '(c, st) :=
      m {| wrapped := w; response := Response.mk "" "" [] false None None; trace := [] |} in
    (wrapped st, match c with Throw e => Some e | _ => None end).

(** [w => {}] *)
Definition do_nothing : CapabilityAction := fun w => (w, None).

(** [w => { w.Raw.metadata.labels = w.Raw.metadata.labels || {};
            w.Raw.metadata.labels[k] = v }] *)
Definition set_label (k v : string) : Exec unit :=
  raw <- read_Raw ;;
  metadata <- get_field raw "metadata" ;;
  l <- get_field metadata "labels" ;;
  l' <- (if truthy l then exec_ret l else new_object) ;;
  set_field metadata "labels" l' ;;;
  set_field l' k (VString v).

(** [w => { w.Raw.metadata.annotations = undefined }] *)
Definition drop_annotations : Exec unit :=
  raw <- read_Raw ;;
  metadata <- get_field raw "metadata" ;;
  set_field metadata "annotations" VUndefined.


(** [w => { w.Raw.metadata = { name: "p1" } }] *)
Definition replace_metadata : Exec unit :=
  raw <- read_Raw ;;
  metadata <- new_object ;;
  set_field metadata "name" (VString "p1") ;;;
  set_field raw "metadata" metadata.

(** [throw new Error("boom")], as a template literal renders the error. *)
Definition boom : Exec unit := throw "Error: boom".

(** The kind of the request, and the inbound Pod. *)
Definition pod_kind : GroupVersionKind.t := GroupVersionKind.mk "" "v1" "Pod".

Definition pod1 : Json :=
  JObject
    [("apiVersion", JString "v1");
     ("kind", JString "Pod");
     ("metadata", JObject [("name", JString "p1"); ("namespace", JString "default")]);
     ("spec", JObject [("containers",
                        JArray [JObject [("name", JString "app");
                                         ("image", JString "nginx")]])])].

(** CREATE of the Pod [p1] in the namespace [default]. *)
Definition create_pod1 : Request.t :=
  Request.mk "uid-1" pod_kind "p1" "default" CREATE pod1 JUndefined.

Definition no_ignore : ModuleIgnore := mkModuleIgnore [] [] [].

Definition module_config (rejectOnError : bool) : ModuleConfig.t :=
  ModuleConfig.mk "id" "a module" no_ignore rejectOnError.

(** [When(a.Pod).IsCreated().Then(cb)] *)
Definition when_pod_created (cb : CapabilityAction) : Binding.t :=
  Binding.mk (Some Create) (GroupVersionKind.mk "" "" "Pod") (mkFilters [] [] []) cb.

(** [When(a.Pod).IsDeleted().Then(cb)] *)
Definition when_pod_deleted (cb : CapabilityAction) : Binding.t :=
  Binding.mk (Some Delete) (GroupVersionKind.mk "" "" "Pod") (mkFilters [] [] []) cb.

Definition capability (name : string) (namespaces : list string)
    (bindings : list Binding.t) : Capability.t :=
  Capability.mk name "a capability" namespaces bindings.

(** The processor with the filter of the spec and the diff of the examples. *)
Definition run_example (rejectOnError : bool) (capabilities : list Capability.t)
  : Completion unit * PState :=
  processor_run (shouldSkip no_ignore) reference_compare
    (module_config rejectOnError) capabilities create_pod1.

Definition process_example (rejectOnError : bool) (capabilities : list Capability.t)
  : error + Response.t :=
  processor (shouldSkip no_ignore) reference_compare
    (module_config rejectOnError) capabilities create_pod1.

(** The document [Raw] holds when the run ends. *)
Definition final_document (run : Completion unit * PState) : option Json :=
  to_json (store (wrapped run.2)) (Raw (wrapped run.2)).

(** [doc.metadata.annotations[key]] *)
Definition annotation (key : string) (doc : Json) : Json :=
  json_member key (json_member "annotations" (json_member "metadata" doc)).



(** A capability restricted to [kube-system], with one binding for Pods. *)
Definition kube_system_only : Capability.t :=
  capability "c" ["kube-system"] [when_pod_created do_nothing].

(** A binding whose callback throws, followed by one that would set a label. *)
Definition fails_then_labels : Capability.t :=
  capability "c" []
    [when_pod_created (action_of boom);
     when_pod_created (action_of (set_label "later" "1"))].

(** A binding whose callback sets a label and then throws. *)
Definition labels_then_fails : Capability.t :=
  capability "c" [] [when_pod_created (action_of (set_label "x" "y" ;;; boom))].

(** A binding whose callback unsets the annotation map and then throws,
    followed by a binding that does nothing. *)
Definition drops_annotations_then_fails : Capability.t :=
  capability "c" []
    [when_pod_created (action_of (drop_annotations ;;; boom));
     when_pod_created do_nothing].

(** A binding whose callback replaces the metadata object and then throws. *)
Definition replaces_metadata_then_fails : Capability.t :=
  capability "c" [] [when_pod_created (action_of (replace_metadata ;;; boom))].

(** A binding for deleted Pods, which the filter skips here, and one for
    created Pods in the same capability. *)
Definition skipped_then_matched : Capability.t :=
  capability "c" [] [when_pod_deleted do_nothing; when_pod_created do_nothing].



(** ** More of the history: which callbacks ran, and what they threw *)

(** The callbacks invoked, in order, each with the name of its capability. *)
Fixpoint calls (tr : list Entry) : list (string * Binding.t) :=
  match tr with
  | [] => []
  | EvCall name action _ :: rest => (name, action) :: calls rest
  | _ :: rest => calls rest
  end.

(** The errors of the callbacks that threw, in order. *)
Fixpoint failures (tr : list Entry) : list error :=
  match tr with
  | [] => []
  | EvCall _ _ (Some e) :: rest => e :: failures rest
  | _ :: rest => failures rest
  end.

(** The bindings of a capability the filter lets through for a request, in
    registration order. *)
Definition let_through_bindings (shouldSkipRequest : Binding.t -> Request.t -> bool)
    (req : Request.t) (name : string) (bindings : list Binding.t)
  : list (string * Binding.t) :=
  flat_map (fun action =>
              if shouldSkipRequest action req then [] else [(name, action)]) bindings.

(** The same over the capabilities, in the order they are given. *)
Definition let_through (shouldSkipRequest : Binding.t -> Request.t -> bool)
    (req : Request.t) (capabilities : list Capability.t)
  : list (string * Binding.t) :=
  flat_map (fun c => let_through_bindings shouldSkipRequest req
                       (Capability.name c) (Capability.bindings c)) capabilities.

(** How far an execution got through the callbacks [expected] of it: the
    calls it added to the history are a prefix of them, and all of them when
    it completed normally. *)
Definition progress {A} (expected : list (string * Binding.t)) (st : PState)
    (c : Completion A) (st' : PState) : Prop :=
  exists done,
    calls (trace st') = calls (trace st) ++ done /\
    done `prefix_of` expected /\
    (forall a, c = Normal a -> done = expected).

(** The warnings are the errors of the callbacks that threw, in order. *)
Definition warnings_report_failures (st : PState) : Prop :=
  Response.warnings (response st) =
    (fun e => "Action failed: " +:+ e) <$> failures (trace st).

(** The inbound object has no metadata to stamp: it is absent or [null], or
    holds no [metadata] (or an absent or [null] one). *)
Definition lacks_metadata (obj : Json) : Prop :=
  json_member "metadata" obj = JUndefined \/ json_member "metadata" obj = JNull.

(** The error of reading the annotations of an object that has no metadata,
    as [get_prop] renders it: [wrapped.Raw.metadata] throws when [Raw] is
    absent or [null], and [metadata.annotations] throws when the metadata
    is. *)
Definition metadata_error (obj : Json) : error :=
  match obj with
  | JUndefined => TypeError "Cannot read properties of undefined (reading 'metadata')"
  | JNull => TypeError "Cannot read properties of null (reading 'metadata')"
  | _ =>
      match json_member "metadata" obj with
      | JNull => TypeError "Cannot read properties of null (reading 'annotations')"
      | _ => TypeError "Cannot read properties of undefined (reading 'annotations')"
      end
  end.

(** The status a step leaves under the key of its capability, going by the
    callbacks that threw before and after it. *)
Definition final_status (config : ModuleConfig.t) (st st' : PState) (status : string)
  : Prop :=
  (status = "succeeded" /\ failures (trace st') = failures (trace st)) \/
  (status = "warning" /\ ModuleConfig.rejectOnError config = false /\
   exists e, failures (trace st') = failures (trace st) ++ [e]).

(** DELETE of the Pod [p1]: the review carries the old object only. *)
Definition delete_pod1 : Request.t :=
  Request.mk "uid-2" pod_kind "p1" "default" DELETE JUndefined pod1.

(** Two capabilities: one binding that is skipped and one whose callback
    sets a label and then throws, in both orders. *)
Definition two_capabilities : list Capability.t :=
  [skipped_then_matched; capability "d" [] [when_pod_created (action_of (set_label "x" "y" ;;; boom));
                                            when_pod_created do_nothing]].

(** A binding for deleted Pods. *)
Definition on_delete : Capability.t :=
  capability "c" [] [when_pod_deleted do_nothing].


(** * The webhook: the manifests of a module and their deployment

    The class [Webhook] builds the Kubernetes manifests of a module and
    applies them to a cluster.  A manifest is plain data and is embedded as a
    JSON document; [deploy] is embedded over the history of its calls to the
    cluster, which answers every call as it pleases. *)

(** [TLSOut], what [genTLS] returns. *)
Module TLSOut.
Record t := mk {
  ca : string;
  crt : string;
  key : string
}.
End TLSOut.

(** A [Buffer]. *)
Abbreviation Buffer := (list Byte.byte).

(** The line feed of the separator between YAML documents. *)
Definition LF : string := String (Ascii.ascii_of_nat 10) "".

(** [j[i]] on an array, and a chain of member reads. *)
Definition json_item (i : nat) (j : Json) : Json :=
  match j with
  | JArray items => default JUndefined (items !! i)
  | _ => JUndefined
  end.

Definition json_at (path : list string) (j : Json) : Json :=
  foldl (fun j k => json_member k j) j path.

(** [r.metadata.name] *)
Definition metadata_name (r : Json) : Json := json_at ["metadata"; "name"] r.

(** [const peprIgnore] *)
Definition peprIgnore : Json :=
  JObject [("key", JString "pepr.dev");
           ("operator", JString "NotIn");
           ("values", JArray [JString "ignore"])].

(** The calls [deploy] makes to the cluster, by the method of the client; a
    name read off a manifest is passed as the document it is. *)
Inductive ApiCall :=
| readNamespace (name : string)
| createNamespace (body : Json)
| createMutatingWebhookConfiguration (body : Json)
| deleteMutatingWebhookConfiguration (name : Json)
| readNamespacedNetworkPolicy (name : Json) (namespace : string)
| createNamespacedNetworkPolicy (namespace : string) (body : Json)
| createClusterRoleBinding (body : Json)
| deleteClusterRoleBinding (name : Json)
| createClusterRole (body : Json)
| deleteClusterRole (name : Json)
| createNamespacedServiceAccount (namespace : string) (body : Json)
| deleteNamespacedServiceAccount (name : Json) (namespace : string)
| createNamespacedSecret (namespace : string) (body : Json)
| deleteNamespacedSecret (name : Json) (namespace : string)
| createNamespacedService (namespace : string) (body : Json)
| deleteNamespacedService (name : Json) (namespace : string)
| createNamespacedDeployment (namespace : string) (body : Json)
| deleteNamespacedDeployment (name : Json) (namespace : string).

(** What [deploy] leaves behind: the lines it logged and the calls it made,
    each call with the error it was answered with, if any. *)
Inductive Step :=
| Logged (level : Level) (message : string)
| Called (call : ApiCall) (outcome : option error).

Fixpoint api_calls (tr : list Step) : list (ApiCall * option error) :=
  match tr with
  | [] => []
  | Called call outcome :: rest => (call, outcome) :: api_calls rest
  | Logged _ _ :: rest => api_calls rest
  end.

(** An [async] computation: it resolves with a value or rejects with an
    error, and extends the history. *)
Definition Async (A : Type) : Type := list Step -> (error + A) * list Step.

Definition resolve {A} (a : A) : Async A := fun tr => (inr a, tr).

Definition reject {A} (e : error) : Async A := fun tr => (inl e, tr).

Definition async_bind {A B} (m : Async A) (k : A -> Async B) : Async B :=
  fun tr =>
    match m tr with
    | (inr a, tr') => k a tr'
    | (inl e, tr') => (inl e, tr')
    end.

(** [try { body } catch (e) { handler }] *)
Definition async_try {A} (body : Async A) (handler : error -> Async A) : Async A :=
  fun tr =>
    match body tr with
    | (inl e, tr') => handler e tr'
    | other => other
    end.

Declare Scope deploy_scope.
Delimit Scope deploy_scope with deploy.
Notation "x <- m ;; k" := (async_bind m (fun x => k))
  (at level 100, m at next level, right associativity) : deploy_scope.
Notation "m ;;; k" := (async_bind m (fun _ => k))
  (at level 100, right associativity) : deploy_scope.

(** [Log.info(message)], [Log.debug(e.body)] *)
Definition Log (level : Level) (message : string) : Async unit :=
  fun tr => (inr tt, tr ++ [Logged level message]).

Module Webhook.

(** What the webhook reads of the module configuration.  The namespaces to
    ignore are optional in [ModuleIgnore]. *)
Record Config := mkConfig {
  uuid : string;
  version : string;
  description : string;
  alwaysIgnore_namespaces : option (list string)
}.

(** An instance: the constructor's parameters and the fields it sets. *)
Record t := mk {
  config : Config;
  host : option string;
  name : string;
  image : string;
  _tls : TLSOut.t
}.

(** [this.host] as a condition: an absent host and the empty string are
    falsy. *)
Definition host_given (w : t) : bool :=
  match host w with
  | Some s => truthy (VString s)
  | None => false
  end.

(** [constructor(config, host?)]; [genTLS] is imported and not among the
    sources. *)
Definition constructor (genTLS : string -> TLSOut.t) (cfg : Config)
    (hst : option string) : t :=
  let nm := "pepr-" +:+ uuid cfg in
  mk cfg hst nm
     ("ghcr.io/defenseunicorns/pepr/controller:v" +:+ version cfg)
     (genTLS (match hst with
              | Some s => if truthy (VString s) then s else nm +:+ ".pepr-system.svc"
              | None => nm +:+ ".pepr-system.svc"
              end)).

Definition namespace (w : t) : Json :=
  JObject [("apiVersion", JString "v1");
           ("kind", JString "Namespace");
           ("metadata", JObject [("name", JString "pepr-system")])].

Definition clusterRole (w : t) : Json :=
  JObject [("apiVersion", JString "rbac.authorization.k8s.io/v1");
           ("kind", JString "ClusterRole");
           ("metadata", JObject [("name", JString (name w))]);
           ("rules",
            JArray [JObject [("apiGroups", JArray [JString "*"]);
                             ("resources", JArray [JString "*"]);
                             ("verbs",
                              JArray [JString "create"; JString "delete"; JString "get";
                                      JString "list"; JString "patch"; JString "update";
                                      JString "watch"])]])].

Definition clusterRoleBinding (w : t) : Json :=
  let name := name w in
  JObject [("apiVersion", JString "rbac.authorization.k8s.io/v1");
           ("kind", JString "ClusterRoleBinding");
           ("metadata", JObject [("name", JString name)]);
           ("roleRef",
            JObject [("apiGroup", JString "rbac.authorization.k8s.io");
                     ("kind", JString "ClusterRole");
                     ("name", JString name)]);
           ("subjects",
            JArray [JObject [("kind", JString "ServiceAccount");
                             ("name", JString name);
                             ("namespace", JString "pepr-system")]])].

Definition serviceAccount (w : t) : Json :=
  JObject [("apiVersion", JString "v1");
           ("kind", JString "ServiceAccount");
           ("metadata", JObject [("name", JString (name w));
                                 ("namespace", JString "pepr-system")])].

Definition tlsSecret (w : t) : Json :=
  JObject [("apiVersion", JString "v1");
           ("kind", JString "Secret");
           ("metadata", JObject [("name", JString (name w +:+ "-tls"));
                                 ("namespace", JString "pepr-system")]);
           ("type", JString "kubernetes.io/tls");
           ("data", JObject [("tls.crt", JString (TLSOut.crt (_tls w)));
                             ("tls.key", JString (TLSOut.key (_tls w)))])].

(** Throws when the configuration holds no list of namespaces to ignore:
    [undefined.length]. *)
Definition mutatingWebhook (w : t) : error + Json :=
  let name := name w in
  match alwaysIgnore_namespaces (config w) with
  | None => inl (TypeError "Cannot read properties of undefined (reading 'length')")
  | Some namespaces =>
      let ignore :=
        [peprIgnore] ++
        (if Nat.ltb 0 (length namespaces)
         then [JObject [("key", JString "kubernetes.io/metadata.name");
                        ("operator", JString "NotIn");
                        ("values", JArray (JString <$> namespaces))]]
         else []) in
      let clientConfig :=
        JObject
          ([("caBundle", JString (TLSOut.ca (_tls w)))] ++
           (if host_given w
            then [("url", JString ("https://" +:+ default "" (host w) +:+ ":3000/mutate"))]
            else [("service",
                   JObject [("name", JString name);
                            ("namespace", JString "pepr-system");
                            ("path", JString "/mutate")])])) in
      inr (JObject
             [("apiVersion", JString "admissionregistration.k8s.io/v1");
              ("kind", JString "MutatingWebhookConfiguration");
              ("metadata", JObject [("name", JString name)]);
              ("webhooks",
               JArray
                 [JObject
                    [("name", JString (name +:+ ".pepr.dev"));
                     ("admissionReviewVersions", JArray [JString "v1"; JString "v1beta1"]);
                     ("clientConfig", clientConfig);
                     ("failurePolicy", JString "Ignore");
                     ("matchPolicy", JString "Equivalent");
                     ("timeoutSeconds", JNumber 15);
                     ("namespaceSelector", JObject [("matchExpressions", JArray ignore)]);
                     ("objectSelector", JObject [("matchExpressions", JArray ignore)]);
                     ("rules",
                      JArray [JObject [("apiGroups", JArray [JString "*"]);
                                       ("apiVersions", JArray [JString "*"]);
                                       ("operations",
                                        JArray [JString "CREATE"; JString "UPDATE";
                                                JString "DELETE"]);
                                       ("resources", JArray [JString "*/*"])]]);
                     ("sideEffects", JString "None")]])])
  end.

Definition deployment (w : t) (hash : string) : Json :=
  JObject
    [("apiVersion", JString "apps/v1");
     ("kind", JString "Deployment");
     ("metadata", JObject [("name", JString (name w));
                           ("namespace", JString "pepr-system");
                           ("labels", JObject [("app", JString (name w))])]);
     ("spec",
      JObject
        [("replicas", JNumber 2);
         ("selector", JObject [("matchLabels", JObject [("app", JString (name w))])]);
         ("template",
          JObject
            [("metadata", JObject [("labels", JObject [("app", JString (name w))])]);
             ("spec",
              JObject
                [("priorityClassName", JString "system-node-critical");
                 ("serviceAccountName", JString (name w));
                 ("containers",
                  JArray
                    [JObject
                       [("name", JString "server");
                        ("image", JString (image w));
                        ("imagePullPolicy", JString "IfNotPresent");
                        ("command",
                         JArray [JString "node";
                                 JString "/app/node_modules/pepr/dist/run.js";
                                 JString hash; JString "-l"; JString "debug"]);
                        ("livenessProbe",
                         JObject [("httpGet",
                                   JObject [("path", JString "/healthz");
                                            ("port", JNumber 3000);
                                            ("scheme", JString "HTTPS")])]);
                        ("ports", JArray [JObject [("containerPort", JNumber 3000)]]);
                        ("resources",
                         JObject [("requests", JObject [("memory", JString "64Mi");
                                                        ("cpu", JString "100m")]);
                                  ("limits", JObject [("memory", JString "256Mi");
                                                      ("cpu", JString "500m")])]);
                        ("volumeMounts",
                         JArray [JObject [("name", JString "tls-certs");
                                          ("mountPath", JString "/etc/certs");
                                          ("readOnly", JBool true)];
                                 JObject [("name", JString "module");
                                          ("mountPath", JString "/app/load");
                                          ("readOnly", JBool true)]])]]);
                 ("volumes",
                  JArray
                    [JObject [("name", JString "tls-certs");
                              ("secret",
                               JObject [("secretName", JString (name w +:+ "-tls"))])];
                     JObject [("name", JString "module");
                              ("secret",
                               JObject [("secretName",
                                         JString (name w +:+ "-module"))])]])])])])].

Definition networkPolicy (w : t) : Json :=
  JObject
    [("apiVersion", JString "networking.k8s.io/v1");
     ("kind", JString "NetworkPolicy");
     ("metadata", JObject [("name", JString (name w));
                           ("namespace", JString "pepr-system")]);
     ("spec",
      JObject
        [("podSelector", JObject [("matchLabels", JObject [("app", JString (name w))])]);
         ("policyTypes", JArray [JString "Ingress"]);
         ("ingress",
          JArray
            [JObject
               [("from",
                 JArray
                   [JObject
                      [("namespaceSelector",
                        JObject [("matchLabels",
                                  JObject [("kubernetes.io/metadata.name",
                                            JString "kube-system")])])]]);
                ("ports", JArray [JObject [("protocol", JString "TCP");
                                           ("port", JNumber 443)]])]])])].

Definition service (w : t) : Json :=
  JObject
    [("apiVersion", JString "v1");
     ("kind", JString "Service");
     ("metadata", JObject [("name", JString (name w));
                           ("namespace", JString "pepr-system")]);
     ("spec",
      JObject [("selector", JObject [("app", JString (name w))]);
               ("ports", JArray [JObject [("port", JNumber 443);
                                          ("targetPort", JNumber 3000)]])])].

Section Imported.

(** [gzipSync], [Buffer.toString("base64")], the SHA-256 digest in
    hexadecimal and [dumpYaml] are imported and not among the sources. *)
Variable gzipSync : Buffer -> Buffer.
Variable base64 : Buffer -> string.
Variable sha256_hex : Buffer -> string.
Variable dumpYaml : Json -> string.

Definition moduleSecret (w : t) (data : Buffer) (hash : string) : Json :=
  let compressed := gzipSync data in
  let path := "module-" +:+ hash +:+ ".js.gz" in
  JObject [("apiVersion", JString "v1");
           ("kind", JString "Secret");
           ("metadata", JObject [("name", JString (name w +:+ "-module"));
                                 ("namespace", JString "pepr-system")]);
           ("type", JString "Opaque");
           ("data", JObject [(path, JString (base64 compressed))])].

(** The object [zarfCfg] that [zarfYaml] dumps. *)
Definition zarfCfg (w : t) (path : string) : Json :=
  JObject
    [("kind", JString "ZarfPackageConfig");
     ("metadata",
      JObject [("name", JString (name w));
               ("description",
                JString ("Pepr Module: " +:+ description (config w)));
               ("url", JString "https://github.com/defenseunicorns/pepr")]);
     ("components",
      JArray
        [JObject
           [("name", JString "module");
            ("required", JBool true);
            ("manifests",
             JArray [JObject [("name", JString "module");
                              ("namespace", JString "pepr-system");
                              ("files", JArray [JString path])]]);
            ("images", JArray [JString (image w)])]])].

Definition zarfYaml (w : t) (path : string) : string :=
  dumpYaml (zarfCfg w path).

(** The array [resources] of [allYaml]; building it throws when
    [mutatingWebhook] does. *)
Definition resources (w : t) (code : Buffer) : error + list Json :=
  let hash := sha256_hex code in
  match mutatingWebhook w with
  | inl e => inl e
  | inr wh =>
      inr [namespace w; networkPolicy w; clusterRole w; clusterRoleBinding w;
           serviceAccount w; tlsSecret w; wh; deployment w hash; service w;
           moduleSecret w code hash]
  end.

Definition allYaml (w : t) (code : Buffer) : error + string :=
  match resources w code with
  | inl e => inl e
  | inr resources => inr (join ("---" +:+ LF) (dumpYaml <$> resources))
  end.

(** The cluster answers a call with an error or with none, going by the
    calls made so far. *)
Variable cluster : list (ApiCall * option error) -> ApiCall -> option error.

(** [await api.call(...)] *)
Definition await (call : ApiCall) : Async unit :=
  fun tr =>
    let outcome := cluster (api_calls tr) call in
    (match outcome with Some e => inl e | None => inr tt end,
     tr ++ [Called call outcome]).

(** [async deploy(code)].  Building the clients from the default
    configuration makes no call to the cluster.  The manifest [ns] is built
    before the constant [namespace] is bound, which hides the method of that
    name. *)
Definition deploy (w : t) (code : Buffer) : Async unit :=
  (Log LInfo "Establishing connection to Kubernetes" ;;;
   let ns := namespace w in
   let namespace := "pepr-system" in
   let hash := sha256_hex code in
   async_try
     (Log LInfo "Checking for namespace" ;;;
      await (readNamespace namespace))
     (fun e =>
        Log LDebug e ;;;
        Log LInfo "Creating namespace" ;;;
        await (createNamespace ns)) ;;;
   match mutatingWebhook w with
   | inl e => reject e
   | inr wh =>
   async_try
     (Log LInfo "Creating mutating webhook" ;;;
      await (createMutatingWebhookConfiguration wh))
     (fun e =>
        Log LDebug e ;;;
        Log LInfo "Removing and re-creating mutating webhook" ;;;
        await (deleteMutatingWebhookConfiguration (metadata_name wh)) ;;;
        await (createMutatingWebhookConfiguration wh)) ;;;
   if host_given w then resolve tt
   else
   let netpol := networkPolicy w in
   async_try
     (Log LInfo "Checking for network policy" ;;;
      await (readNamespacedNetworkPolicy (metadata_name netpol) namespace))
     (fun e =>
        Log LDebug e ;;;
        Log LInfo "Creating network policy" ;;;
        await (createNamespacedNetworkPolicy namespace netpol)) ;;;
   let crb := clusterRoleBinding w in
   async_try
     (Log LInfo "Creating cluster role binding" ;;;
      await (createClusterRoleBinding crb))
     (fun e =>
        Log LDebug e ;;;
        Log LInfo "Removing and re-creating cluster role binding" ;;;
        await (deleteClusterRoleBinding (metadata_name crb)) ;;;
        await (createClusterRoleBinding crb)) ;;;
   let cr := clusterRole w in
   async_try
     (Log LInfo "Creating cluster role" ;;;
      await (createClusterRole cr))
     (fun e =>
        Log LDebug e ;;;
        Log LInfo "Removing and re-creating  the cluster role" ;;;
        async_try
          (await (deleteClusterRole (metadata_name cr)) ;;;
           await (createClusterRole cr))
          (fun e => Log LDebug e)) ;;;
   let sa := serviceAccount w in
   async_try
     (Log LInfo "Creating service account" ;;;
      await (createNamespacedServiceAccount namespace sa))
     (fun e =>
        Log LDebug e ;;;
        Log LInfo "Removing and re-creating service account" ;;;
        await (deleteNamespacedServiceAccount (metadata_name sa) namespace) ;;;
        await (createNamespacedServiceAccount namespace sa)) ;;;
   let mod_ := moduleSecret w code hash in
   async_try
     (Log LInfo "Creating module secret" ;;;
      await (createNamespacedSecret namespace mod_))
     (fun e =>
        Log LDebug e ;;;
        Log LInfo "Removing and re-creating module secret" ;;;
        await (deleteNamespacedSecret (metadata_name mod_) namespace) ;;;
        await (createNamespacedSecret namespace mod_)) ;;;
   let svc := service w in
   async_try
     (Log LInfo "Creating service" ;;;
      await (createNamespacedService namespace svc))
     (fun e =>
        Log LDebug e ;;;
        Log LInfo "Removing and re-creating service" ;;;
        await (deleteNamespacedService (metadata_name svc) namespace) ;;;
        await (createNamespacedService namespace svc)) ;;;
   let tls := tlsSecret w in
   async_try
     (Log LInfo "Creating TLS secret" ;;;
      await (createNamespacedSecret namespace tls))
     (fun e =>
        Log LDebug e ;;;
        Log LInfo "Removing and re-creating TLS secret" ;;;
        await (deleteNamespacedSecret (metadata_name tls) namespace) ;;;
        await (createNamespacedSecret namespace tls)) ;;;
   let dep := deployment w hash in
   async_try
     (Log LInfo "Creating deployment" ;;;
      await (createNamespacedDeployment namespace dep))
     (fun e =>
        Log LDebug e ;;;
        Log LInfo "Removing and re-creating deployment" ;;;
        await (deleteNamespacedDeployment (metadata_name dep) namespace) ;;;
        await (createNamespacedDeployment namespace dep))
   end)%deploy.

(** One run of [deploy] on a cluster nothing has been asked of yet. *)
Definition deploy_run (w : t) (code : Buffer) : (error + unit) * list Step :=
  deploy w code [].

End Imported.

End Webhook.


(** ** Reading the manifests and the history of a deployment *)

(** Two reads that give the same string. *)
Definition same_string (a b : Json) : Prop :=
  exists s, a = JString s /\ b = JString s.

(** [r.metadata.namespace] *)
Definition metadata_namespace (r : Json) : Json := json_at ["metadata"; "namespace"] r.

(** The container of a deployment, and the [clientConfig] of a webhook
    configuration. *)
Definition container_of (dep : Json) : Json :=
  json_item 0 (json_at ["spec"; "template"; "spec"; "containers"] dep).

Definition volume_of (i : nat) (dep : Json) : Json :=
  json_item i (json_at ["spec"; "template"; "spec"; "volumes"] dep).

Definition webhook_of (wh : Json) : Json := json_item 0 (json_at ["webhooks"] wh).

(** The kinds that live in no namespace. *)
Definition cluster_scoped (r : Json) : Prop :=
  json_at ["kind"] r = JString "Namespace" \/
  json_at ["kind"] r = JString "ClusterRole" \/
  json_at ["kind"] r = JString "ClusterRoleBinding" \/
  json_at ["kind"] r = JString "MutatingWebhookConfiguration".

(** How an [async] computation ended. *)
Definition failure {A} (r : error + A) : option error :=
  match r with inl e => Some e | inr _ => None end.

(** [adds P m]: from any history, [m] appends steps that satisfy [P] together
    with the way [m] ended. *)
Definition adds {A} (P : option error -> list Step -> Prop) (m : Async A) : Prop :=
  forall tr, exists added, (m tr).2 = tr ++ added /\ P (failure (m tr).1) added.

(** The three ways [deploy] applies a resource: read it and create it when
    the read fails; create it, and when that fails delete it and create it
    again; and the same with the errors of the second attempt dropped. *)
Inductive Block :=
| ReadOrCreate (read create : ApiCall)
| CreateOrReplace (create delete : ApiCall)
| TryReplace (create delete : ApiCall).

(** The calls of a create, delete, create again: [out] is the answer to the
    last call made. *)
Definition replace_attempt (create delete : ApiCall) (out : option error)
    (cs : list (ApiCall * option error)) : Prop :=
  (out = None /\ cs = [(create, None)]) \/
  (exists e e', out = Some e' /\ cs = [(create, Some e); (delete, Some e')]) \/
  (exists e, cs = [(create, Some e); (delete, None); (create, out)]).

Definition block_shape (b : Block) (out : option error)
    (cs : list (ApiCall * option error)) : Prop :=
  match b with
  | ReadOrCreate read create =>
      (out = None /\ cs = [(read, None)]) \/
      (exists e, cs = [(read, Some e); (create, out)])
  | CreateOrReplace create delete => replace_attempt create delete out cs
  | TryReplace create delete =>
      out = None /\ exists out', replace_attempt create delete out' cs
  end.

(** The calls of blocks run one after the other, up to the first that
    fails. *)
Fixpoint chain (blocks : list Block) (out : option error)
    (cs : list (ApiCall * option error)) : Prop :=
  match blocks with
  | [] => out = None /\ cs = []
  | b :: rest =>
      (exists e, out = Some e /\ block_shape b (Some e) cs) \/
      (exists cs1 cs2, cs = cs1 ++ cs2 /\ block_shape b None cs1 /\ chain rest out cs2)
  end.

(** The blocks of [deploy], for the webhook configuration [wh]. *)
Definition deploy_blocks (gzipSync : Buffer -> Buffer) (base64 : Buffer -> string)
    (sha256_hex : Buffer -> string) (w : Webhook.t) (wh : Json) (code : Buffer)
  : list Block :=
  let namespace := "pepr-system" in
  let hash := sha256_hex code in
  let netpol := Webhook.networkPolicy w in
  let crb := Webhook.clusterRoleBinding w in
  let cr := Webhook.clusterRole w in
  let sa := Webhook.serviceAccount w in
  let mod_ := Webhook.moduleSecret gzipSync base64 w code hash in
  let svc := Webhook.service w in
  let tls := Webhook.tlsSecret w in
  let dep := Webhook.deployment w hash in
  [ReadOrCreate (readNamespace namespace) (createNamespace (Webhook.namespace w));
   CreateOrReplace (createMutatingWebhookConfiguration wh)
                   (deleteMutatingWebhookConfiguration (metadata_name wh))] ++
  (if Webhook.host_given w then []
   else
     [ReadOrCreate (readNamespacedNetworkPolicy (metadata_name netpol) namespace)
                   (createNamespacedNetworkPolicy namespace netpol);
      CreateOrReplace (createClusterRoleBinding crb)
                      (deleteClusterRoleBinding (metadata_name crb));
      TryReplace (createClusterRole cr) (deleteClusterRole (metadata_name cr));
      CreateOrReplace (createNamespacedServiceAccount namespace sa)
                      (deleteNamespacedServiceAccount (metadata_name sa) namespace);
      CreateOrReplace (createNamespacedSecret namespace mod_)
                      (deleteNamespacedSecret (metadata_name mod_) namespace);
      CreateOrReplace (createNamespacedService namespace svc)
                      (deleteNamespacedService (metadata_name svc) namespace);
      CreateOrReplace (createNamespacedSecret namespace tls)
                      (deleteNamespacedSecret (metadata_name tls) namespace);
      CreateOrReplace (createNamespacedDeployment namespace dep)
                      (deleteNamespacedDeployment (metadata_name dep) namespace)]).

Definition is_delete (c : ApiCall) : bool :=
  match c with
  | deleteMutatingWebhookConfiguration _ | deleteClusterRoleBinding _
  | deleteClusterRole _ | deleteNamespacedServiceAccount _ _
  | deleteNamespacedSecret _ _ | deleteNamespacedService _ _
  | deleteNamespacedDeployment _ _ => true
  | _ => false
  end.

(** The delete that removes what a create would have made. *)
Definition delete_of (c : ApiCall) : option ApiCall :=
  match c with
  | createMutatingWebhookConfiguration body =>
      Some (deleteMutatingWebhookConfiguration (metadata_name body))
  | createClusterRoleBinding body => Some (deleteClusterRoleBinding (metadata_name body))
  | createClusterRole body => Some (deleteClusterRole (metadata_name body))
  | createNamespacedServiceAccount ns body =>
      Some (deleteNamespacedServiceAccount (metadata_name body) ns)
  | createNamespacedSecret ns body =>
      Some (deleteNamespacedSecret (metadata_name body) ns)
  | createNamespacedService ns body =>
      Some (deleteNamespacedService (metadata_name body) ns)
  | createNamespacedDeployment ns body =>
      Some (deleteNamespacedDeployment (metadata_name body) ns)
  | _ => None
  end.

(** Every delete comes right after a failed create of the same resource. *)
Definition deletes_follow_failed_creates (cs : list (ApiCall * option error)) : Prop :=
  forall before d out after,
    cs = before ++ (d, out) :: after -> is_delete d = true ->
    exists before' c e, before = before' ++ [(c, Some e)] /\ delete_of c = Some d.

(** The calls whose error [deploy] handles: the two reads, and whatever is
    done to the cluster role. *)
Definition handled (c : ApiCall) : bool :=
  match c with
  | readNamespace _ | readNamespacedNetworkPolicy _ _
  | createClusterRole _ | deleteClusterRole _ => true
  | _ => false
  end.

(** The calls about the namespace and the webhook configuration. *)
Definition registers (c : ApiCall) : bool :=
  match c with
  | readNamespace _ | createNamespace _
  | createMutatingWebhookConfiguration _ | deleteMutatingWebhookConfiguration _ => true
  | _ => false
  end.

(** A rejection carries the error of the last call made. *)
Definition rejects_with_last_call (out : option error)
    (cs : list (ApiCall * option error)) : Prop :=
  forall e, out = Some e ->
    exists before c, cs = before ++ [(c, Some e)] /\ handled c = false.

(** Clusters of the examples: one that answers every call with success, and
    one where the reads fail, the cluster role can be neither created nor
    deleted, and the service can be created only right after it was
    deleted. *)
Definition willing : list (ApiCall * option error) -> ApiCall -> option error :=
  fun _ _ => None.

Definition stubborn : list (ApiCall * option error) -> ApiCall -> option error :=
  fun history call =>
    match call with
    | readNamespace _ | readNamespacedNetworkPolicy _ _ => Some "404"
    | createClusterRole _ => Some "409"
    | deleteClusterRole _ => Some "403"
    | createNamespacedService _ _ =>
        match last history with
        | Some (deleteNamespacedService _ _, None) => None
        | _ => Some "409"
        end
    | _ => None
    end.

(** A module of the examples and its webhooks, in the cluster and at a
    host. *)
Definition fixed_tls : string -> TLSOut.t :=
  fun host => TLSOut.mk ("ca of " +:+ host) ("crt of " +:+ host) ("key of " +:+ host).

Definition module_cfg (namespaces : option (list string)) : Webhook.Config :=
  Webhook.mkConfig "static-test" "0.1.0" "a module" namespaces.

Definition in_cluster : Webhook.t :=
  Webhook.constructor fixed_tls (module_cfg (Some ["kube-system"])) None.

Definition at_host : Webhook.t :=
  Webhook.constructor fixed_tls (module_cfg (Some [])) (Some "host.docker.internal").

Definition unconfigured : Webhook.t :=
  Webhook.constructor fixed_tls (module_cfg None) None.

(** Stand-ins for the imported functions in the examples. *)
Definition no_gzip : Buffer -> Buffer := fun data => data.
Definition as_text : Buffer -> string := fun _ => "payload".
Definition no_hash : Buffer -> string := fun _ => "0000".

(** A cluster that answers every call with an error. *)
Definition refusing : list (ApiCall * option error) -> ApiCall -> option error :=
  fun _ _ => Some "500".

(** The runs of the examples. *)
Definition deploy_example (cluster : list (ApiCall * option error) -> ApiCall -> option error)
    (w : Webhook.t) : (error + unit) * list Step :=
  Webhook.deploy_run no_gzip as_text no_hash cluster w [].

Definition resources_example (w : Webhook.t) : error + list Json :=
  Webhook.resources no_gzip as_text no_hash w [].


(** The calls a block may make. *)
Definition block_calls (b : Block) : list ApiCall :=
  match b with
  | ReadOrCreate read create => [read; create]
  | CreateOrReplace create delete | TryReplace create delete => [create; delete]
  end.

(** A block deletes only what its create would have made. *)
Definition replaces (b : Block) : Prop :=
  match b with
  | ReadOrCreate read create => is_delete read = false /\ is_delete create = false
  | CreateOrReplace create delete | TryReplace create delete =>
      is_delete create = false /\ delete_of create = Some delete
  end.

(** The errors of a block that it does not handle come from calls that are
    not handled. *)
Definition unhandled (b : Block) : Prop :=
  match b with
  | ReadOrCreate read create => handled create = false
  | CreateOrReplace create delete => handled create = false /\ handled delete = false
  | TryReplace create delete => True
  end.


Definition about_cluster_role (c : ApiCall) : bool :=
  match c with
  | createClusterRole _ | deleteClusterRole _ => true
  | _ => false
  end.

(** * Proofs *)

(** ** Rules for executions *)

Lemma wp_ret {A} (a : A) Q st : Q (Normal a) st -> wp (exec_ret a) Q st.
Proof. done. Qed.

Lemma wp_bind {A B} (m : Exec A) (f : A -> Exec B) Q st :
  wp m (post (fun a => wp (f a) Q) (fun r => Q (Return r)) (fun e => Q (Throw e))) st ->
  wp (exec_bind m f) Q st.
Proof.
  unfold wp, exec_bind, post. destruct (m st) as [[a | r | e] st']; done.
Qed.

Lemma wp_try_catch {A} (body : Exec A) (handler : error -> Exec A) Q st :
  wp body (post (fun a => Q (Normal a)) (fun r => Q (Return r))
                (fun e => wp (handler e) Q)) st ->
  wp (try_catch body handler) Q st.
Proof.
  unfold wp, try_catch, post. destruct (body st) as [[a | r | e] st']; done.
Qed.

Lemma wp_mono {A} (m : Exec A) (Q Q' : Completion A -> PState -> Prop) st :
  wp m Q st -> (forall c st', Q c st' -> Q' c st') -> wp m Q' st.
Proof. unfold wp. auto. Qed.

(** The loop rule: an invariant [I] kept by every normal pass of the body. *)
Lemma wp_for_of {A} (xs : list A) (body : A -> Exec unit)
    (I : PState -> Prop) R T st :
  I st ->
  (forall x st', x ∈ xs -> I st' -> wp (body x) (post (fun _ => I) R T) st') ->
  wp (for_of xs body) (post (fun _ => I) R T) st.
Proof.
  revert st. induction xs as [| x xs IH]; intros st HI Hbody; simpl.
  - done.
  - apply wp_bind.
    eapply wp_mono; [apply Hbody; [apply elem_of_cons; by left | done] |].
    intros [[] | r | e] st'; simpl; try done.
    intros HI'. apply IH; [done |].
    intros y st'' Hy. apply Hbody. apply elem_of_cons. by right.
Qed.

Lemma wp_if {A} (b : bool) (m1 m2 : Exec A) Q st :
  (b = true -> wp m1 Q st) -> (b = false -> wp m2 Q st) ->
  wp (if b then m1 else m2) Q st.
Proof. destruct b; auto. Qed.

Lemma wp_logger level message prefix Q st :
  Q (Normal tt) (record (EvLog level message prefix) st) ->
  wp (logger level message prefix) Q st.
Proof. done. Qed.

Lemma wp_read_Raw Q st : Q (Normal (Raw (wrapped st))) st -> wp read_Raw Q st.
Proof. done. Qed.

Lemma wp_get_field v k Q st :
  (forall e, get_prop (store (wrapped st)) v k = inl e -> Q (Throw e) st) ->
  (forall x, get_prop (store (wrapped st)) v k = inr x -> Q (Normal x) st) ->
  wp (get_field v k) Q st.
Proof.
  unfold wp, get_field. destruct (get_prop _ v k); simpl; auto.
Qed.

Lemma wp_set_field v k x Q st :
  (forall e, set_prop (store (wrapped st)) v k x = inl e -> Q (Throw e) st) ->
  (forall h, set_prop (store (wrapped st)) v k x = inr h ->
             Q (Normal tt) (set_wrapped {| store := h; Raw := Raw (wrapped st) |} st)) ->
  wp (set_field v k x) Q st.
Proof.
  unfold wp, set_field. destruct (set_prop _ v k x); simpl; auto.
Qed.

Lemma wp_new_object Q st :
  Q (Normal (VRef (length (store (wrapped st)))))
    (set_wrapped {| store := store (wrapped st) ++ [empty_object];
                    Raw := Raw (wrapped st) |} st) ->
  wp new_object Q st.
Proof. done. Qed.

Lemma wp_update_response f Q st :
  Q (Normal tt) (set_response (f (response st)) st) -> wp (update_response f) Q st.
Proof. done. Qed.

Lemma wp_return_response {A} (Q : Completion A -> PState -> Prop) st :
  Q (Return (response st)) st -> wp return_response Q st.
Proof. done. Qed.

Lemma wp_invoke capability action Q st :
  (forall w, Binding.callback action (wrapped st) = (w, None) ->
     Q (Normal tt) (record (EvCall capability action None) (set_wrapped w st))) ->
  (forall w e, Binding.callback action (wrapped st) = (w, Some e) ->
     Q (Throw e) (record (EvCall capability action (Some e)) (set_wrapped w st))) ->
  wp (invoke capability action) Q st.
Proof.
  unfold wp, invoke. destruct (Binding.callback action (wrapped st)) as [w [e |]];
    simpl; auto.
Qed.

(** A stamp either completes, leaving its entry in the history, or throws
    and leaves the state as it was. *)
Lemma stamp_unfold metadata identifier status st :
  stamp metadata identifier status st =
  match stamp_store (store (wrapped st)) metadata identifier status with
  | inl e => (Throw e, st)
  | inr h => (Normal tt, record (EvStamp identifier status)
                           (set_wrapped {| store := h; Raw := Raw (wrapped st) |} st))
  end.
Proof.
  unfold stamp, stamp_store, exec_bind, get_field, set_field, lift, throw, exec_ret.
  destruct (get_prop _ metadata "annotations") as [e | a]; [done |].
  by destruct (set_prop _ a identifier _) as [e | h].
Qed.

(** Whether a stamp throws, and with what, does not depend on the status
    written. *)
Lemma stamp_store_status h metadata identifier s1 s2 e :
  stamp_store h metadata identifier s1 = inl e ->
  stamp_store h metadata identifier s2 = inl e.
Proof.
  unfold stamp_store.
  destruct (get_prop h metadata "annotations") as [e' | a]; [done |].
  unfold set_prop. destruct a; try done. by destruct (h !! l).
Qed.

Lemma wp_stamp metadata identifier status Q st :
  (forall e, stamp_store (store (wrapped st)) metadata identifier status = inl e ->
     Q (Throw e) st) ->
  (forall h, stamp_store (store (wrapped st)) metadata identifier status = inr h ->
     Q (Normal tt) (record (EvStamp identifier status)
                      (set_wrapped {| store := h; Raw := Raw (wrapped st) |} st))) ->
  wp (stamp metadata identifier status) Q st.
Proof.
  intros Hthrow Hok. unfold wp. rewrite stamp_unfold.
  destruct (stamp_store _ metadata identifier status); simpl; auto.
Qed.

(** One step of symbolic execution. *)
Ltac wp_step :=
  lazymatch goal with
  | |- wp (exec_bind _ _) _ _ => apply wp_bind
  | |- wp (try_catch _ _) _ _ => apply wp_try_catch
  | |- wp (exec_ret _) _ _ => apply wp_ret
  | |- wp (logger _ _ _) _ _ => apply wp_logger
  | |- wp read_Raw _ _ => apply wp_read_Raw
  | |- wp (get_field _ _) _ _ => apply wp_get_field; [intros ? _ | intros ? _]
  | |- wp (set_field _ _ _) _ _ => apply wp_set_field; [intros ? _ | intros ? _]
  | |- wp new_object _ _ => apply wp_new_object
  | |- wp (stamp _ _ _) _ _ => apply wp_stamp; [intros ? ? | intros ? ?]
  | |- wp (invoke _ _) _ _ => apply wp_invoke; [intros ? ? | intros ? ? ?]
  | |- wp (push_warning _) _ _ => apply wp_update_response
  | |- wp (set_result _) _ _ => apply wp_update_response
  | |- wp (set_allowed _) _ _ => apply wp_update_response
  | |- wp (set_patch _) _ _ => apply wp_update_response
  | |- wp return_response _ _ => apply wp_return_response
  | |- wp (if _ then _ else _) _ _ => apply wp_if; intros ?
  | |- post _ _ _ _ _ => unfold post at 1
  end.

(** A stamp that threw throws again on the same store, whatever the status. *)
Ltac stamp_twice :=
  match goal with
  | H1 : stamp_store _ ?m ?i _ = inl _, H2 : stamp_store _ ?m ?i _ = inr _ |- _ =>
      cbn in H1, H2; rewrite (stamp_store_status _ _ _ _ _ _ H1) in H2; discriminate
  end.

Ltac wp_keep :=
  lazymatch goal with
  | |- wp (get_field _ _) _ _ =>
      apply wp_get_field; [intros ? _ | let H := fresh "Hget" in intros ? H; cbn in H]
  | |- wp (set_field _ _ _) _ _ =>
      apply wp_set_field; [intros ? _ | let H := fresh "Hset" in intros ? H; cbn in H]
  | |- wp (stamp _ _ _) _ _ =>
      apply wp_stamp; let H := fresh "Hstamp" in intros ? H; cbn in H
  | |- wp (invoke _ _) _ _ =>
      apply wp_invoke;
        [let H := fresh "Hcall" in intros ? H; cbn in H
        | let H := fresh "Hcall" in intros ? ? H; cbn in H]
  | |- wp (if truthy _ then _ else _) _ _ =>
      apply wp_if; let H := fresh "Htruthy" in intros H
  | _ => wp_step
  end.

(** ** Counting in the history *)

Lemma failed_callbacks_app tr1 tr2 :
  failed_callbacks (tr1 ++ tr2) = failed_callbacks tr1 + failed_callbacks tr2.
Proof. induction tr1 as [| [| | ? ? [|]] tr1 IH]; simpl; lia. Qed.

Lemma invoked_callbacks_app tr1 tr2 :
  invoked_callbacks (tr1 ++ tr2) = invoked_callbacks tr1 + invoked_callbacks tr2.
Proof. induction tr1 as [| [| |] tr1 IH]; simpl; lia. Qed.

Lemma action_failed_warnings_snoc ws e :
  action_failed_warnings (ws ++ ["Action failed: " +:+ e]) =
  S (action_failed_warnings ws).
Proof.
  unfold action_failed_warnings. rewrite List.filter_app, length_app. simpl. lia.
Qed.

(** ** Documents: induction, reflexivity, and the clone *)








(** ** What the loops maintain *)

Section Invariants.

Variable shouldSkipRequest : Binding.t -> Request.t -> bool.
Variable compare : Json -> Json -> error + list PatchOperation.
Variable config : ModuleConfig.t.
Variable req : Request.t.

Ltac leaf :=
  unfold loop_inv, rejected, escaped in *; cbn;
  rewrite ?failed_callbacks_app, ?length_app, ?action_failed_warnings_snoc; cbn;
  intuition (try congruence; try lia).

Lemma process_binding_inv name prefix action st :
  loop_inv config req st ->
  wp (process_binding shouldSkipRequest config req name prefix action)
     (post (fun _ => loop_inv config req) (rejected config req) (escaped config)) st.
Proof.
  intros HI. unfold process_binding.
  apply wp_if; intros Hskip; [by apply wp_ret |].
  repeat wp_step; try stamp_twice; try (leaf; fail).
  all: unfold rejected; cbn; repeat split; try (leaf; fail).
  all: eexists _, _, _, _, _, _; split;
    [rewrite <- (app_assoc _ [_] [_]); reflexivity | leaf].
Qed.

Lemma process_capability_inv capability st :
  loop_inv config req st ->
  wp (process_capability shouldSkipRequest config req capability)
     (post (fun _ => loop_inv config req) (rejected config req) (escaped config)) st.
Proof.
  intros HI. unfold process_capability.
  wp_step. wp_step. wp_step.
  apply wp_for_of; [leaf |].
  intros action st' _ HI'. by apply process_binding_inv.
Qed.

Lemma initial_state_inv : loop_inv config req (initial_state req).
Proof. unfold loop_inv. cbn. intuition. Qed.

Lemma dispatch_inv capabilities :
  wp (dispatch shouldSkipRequest config req capabilities)
     (post (fun _ => loop_inv config req) (rejected config req) (escaped config))
     (initial_state req).
Proof.
  unfold dispatch. wp_step. wp_step. wp_step.
  apply wp_for_of; [pose proof initial_state_inv; leaf |].
  intros capability st' _ HI'. by apply process_capability_inv.
Qed.

Lemma processor_body_split capabilities st :
  processor_body shouldSkipRequest compare config capabilities req st =
  (dispatch shouldSkipRequest config req capabilities ;;; finish compare req) st.
Proof.
  unfold processor_body, dispatch, finish, exec_bind, logger.
  by destruct (for_of capabilities _ _) as [[[] | r | e] st'].
Qed.

Lemma wp_diff original Q st :
  (forall e, diff compare original st = (Throw e, st) -> Q (Throw e) st) ->
  (forall doc patches,
     to_json (store (wrapped st)) (Raw (wrapped st)) = Some doc ->
     compare original doc = inr patches -> Q (Normal patches) st) ->
  wp (diff compare original) Q st.
Proof.
  intros Hthrow Hok. unfold wp.
  destruct (diff compare original st) as [c st'] eqn:Hdiff.
  unfold diff in Hdiff.
  destruct (to_json _ _) as [doc |] eqn:Hdoc.
  - destruct (compare original doc) as [e | patches] eqn:Hcmp;
      simpl in Hdiff; injection Hdiff as <- <-; simpl.
    + by apply Hthrow.
    + by eapply Hok.
  - injection Hdiff as <- <-. simpl. by apply Hthrow.
Qed.


Lemma finish_spec st :
  loop_inv config req st ->
  wp (finish compare req)
     (post (fun _ _ => False) (answered compare config req)
           (diff_escaped compare config req)) st.
Proof.
  intros HI. unfold finish.
  wp_step. wp_step. wp_step. wp_step.
  apply wp_diff.
  - intros e He. unfold post, diff_escaped. cbn. leaf.
  - intros doc patches Hdoc Hcmp. repeat wp_step.
    unfold answered. cbn. cbn in Hdoc.
    rewrite ?failed_callbacks_app. cbn. unfold loop_inv in HI.
    repeat split; try (intuition (try congruence; try lia); fail).
    exists doc, patches. by rewrite <- Hdoc.
Qed.

Lemma processor_run_spec capabilities :
  run_post compare config req
    (processor_run shouldSkipRequest compare config capabilities req).1
           (processor_run shouldSkipRequest compare config capabilities req).2.
Proof.
  unfold processor_run. rewrite processor_body_split.
  change (wp (dispatch shouldSkipRequest config req capabilities ;;; finish compare req)
             (run_post compare config req) (initial_state req)).
  apply wp_bind.
  eapply wp_mono; [apply dispatch_inv |].
  intros [[] | r | e] st' H; simpl in *; unfold run_post; simpl; auto.
  eapply wp_mono; [by apply finish_spec |].
  intros [[] | r' | e'] st''; simpl; auto.
Qed.

End Invariants.

(** ** Bindings the filter skips, and the stamps of the others *)

Section Stamps.

Variable shouldSkipRequest : Binding.t -> Request.t -> bool.
Variable compare : Json -> Json -> error + list PatchOperation.
Variable config : ModuleConfig.t.
Variable req : Request.t.









End Stamps.

(** ** What the bindings do to the wrapper when errors are let pass *)

Section Effects.

Variable shouldSkipRequest : Binding.t -> Request.t -> bool.
Variable compare : Json -> Json -> error + list PatchOperation.
Variable config : ModuleConfig.t.
Variable req : Request.t.




End Effects.

(** ** The claims about the response *)

Section Responses.

Variable shouldSkipRequest : Binding.t -> Request.t -> bool.
Variable compare : Json -> Json -> error + list PatchOperation.

(** How a run ends decides what the caller gets. *)
Lemma processor_cases config capabilities req :
  (exists r, processor shouldSkipRequest compare config capabilities req = inr r /\
     (rejected config req r (processor_run shouldSkipRequest compare config capabilities req).2 \/
      answered compare config req r
        (processor_run shouldSkipRequest compare config capabilities req).2)) \/
  (exists e, processor shouldSkipRequest compare config capabilities req = inl e /\
     (escaped config e (processor_run shouldSkipRequest compare config capabilities req).2 \/
      diff_escaped compare config req e
        (processor_run shouldSkipRequest compare config capabilities req).2)).
Proof.
  pose proof (processor_run_spec shouldSkipRequest compare config req capabilities)
    as Hspec.
  unfold processor.
  destruct (processor_run shouldSkipRequest compare config capabilities req)
    as [[[] | r | e] st]; simpl in *.
  - done.
  - left. eauto.
  - right. eauto.
Qed.

(** C7.  Whatever the configuration, the capabilities and the request, a
    response returned by the processor carries the uid of the request; this
    holds for the early return of the reject-on-error policy as for the
    final return. *)
Theorem response_uid_is_request_uid config capabilities req r :
  processor shouldSkipRequest compare config capabilities req = inr r ->
  Response.uid r = Request.uid req.
Proof.
  intros Hr.
  destruct (processor_cases config capabilities req)
    as [(r' & Hr' & [Hrej | Hans]) | (e & He & _)]; [| | congruence].
  - assert (r' = r) as -> by congruence. unfold rejected in Hrej. tauto.
  - assert (r' = r) as -> by congruence. unfold answered in Hans. tauto.
Qed.






End Responses.

(** ** The claims about the wrapper and the patch *)

Section Patches.

Variable shouldSkipRequest : Binding.t -> Request.t -> bool.
Variable compare : Json -> Json -> error + list PatchOperation.




(** With [rejectOnError = false] a response that is returned allows the
    request and counts one [Action failed] warning per callback that threw. *)
Theorem warnings_count_failed_callbacks config capabilities req r :
  ModuleConfig.rejectOnError config = false ->
  processor shouldSkipRequest compare config capabilities req = inr r ->
  Response.allowed r = true /\
  action_failed_warnings (Response.warnings r) =
    failed_callbacks
      (trace (processor_run shouldSkipRequest compare config capabilities req).2) /\
  length (Response.warnings r) =
    failed_callbacks (trace (processor_run shouldSkipRequest compare config capabilities req).2).
Proof.
  intros Hpolicy Hr.
  destruct (processor_cases shouldSkipRequest compare config capabilities req)
    as [(r' & Hr' & [Hrej | Hans]) | (e & He & _)]; [| | congruence].
  - unfold rejected in Hrej. destruct Hrej as (_ & Htrue & _). congruence.
  - assert (r' = r) as -> by congruence. unfold answered in Hans. tauto.
Qed.

(** A response either allows the request, with a patch and no result, or
    denies it, with a result and no patch; its patch type is always
    [JSONPatch]. *)
Theorem response_allows_with_patch_or_denies_with_result
    config capabilities req r :
  processor shouldSkipRequest compare config capabilities req = inr r ->
  Response.patchType r = "JSONPatch" /\
  ((Response.allowed r = true /\ is_Some (Response.patch r) /\
    Response.result r = None) \/
   (Response.allowed r = false /\ is_Some (Response.result r) /\
    Response.patch r = None)).
Proof.
  intros Hr.
  destruct (processor_cases shouldSkipRequest compare config capabilities req)
    as [(r' & Hr' & [Hrej | Hans]) | (e & He & _)]; [| | congruence].
  - assert (r' = r) as -> by congruence. unfold rejected in Hrej.
    destruct Hrej as (_ & _ & _ & Htype & Hallowed & Hresult & Hpatch & _).
    split; [done |]. right. by rewrite Hresult.
  - assert (r' = r) as -> by congruence. unfold answered in Hans.
    destruct Hans as (_ & _ & Htype & Hallowed & Hresult & _ & _ & _ & Hpatch).
    destruct Hpatch as (doc & patches & _ & _ & Hpatch).
    split; [done |]. left. by rewrite Hpatch.
Qed.

End Patches.

(** ** Worked runs for the claims *)

(** A run that returns a response. *)
Lemma response_uid_is_request_uid_witness :
  exists r,
    process_example false
      [capability "addLabel" [] [when_pod_created (action_of (set_label "x" "y"))]]
      = inr r /\
    Response.uid r = "uid-1".
Proof.
  eexists. split; [vm_compute; reflexivity |].
  apply (response_uid_is_request_uid (shouldSkip no_ignore) reference_compare
           (module_config false)
           [capability "addLabel" [] [when_pod_created (action_of (set_label "x" "y"))]]
           create_pod1).
  vm_compute. reflexivity.
Defined.












(** C2, on the code: the capability is restricted to [kube-system], the
    request is in [default], and the callback of its binding runs and its key
    is stamped. *)
Lemma capability_namespaces_are_not_consulted :
  Capability.namespaces kube_system_only = ["kube-system"] /\
  Request.namespace create_pod1 = "default" /\
  invoked_callbacks (trace (run_example false [kube_system_only]).2) = 1 /\
  annotation (identifier_of (module_config false) (Capability.name kube_system_only))
    <$> final_document (run_example false [kube_system_only])
    = Some (JString "succeeded").
Proof. vm_compute. done. Qed.

(** C6, on the code: with [rejectOnError = false] the callback of the first
    binding unsets the annotation map and throws; the [warning] stamp then
    throws out of the processor, so no response is returned and the second
    binding never runs.  And when the failing callback replaces the metadata
    object, the run goes on but the [warning] stamp lands on the object that
    was replaced: the output carries no annotation for the capability. *)
Lemma warning_stamp_can_throw_or_miss :
  (process_example false [drops_annotations_then_fails] =
     inl "TypeError: Cannot set properties of undefined (setting 'pepr.dev/id/c')" /\
   failed_callbacks (trace (run_example false [drops_annotations_then_fails]).2) = 1 /\
   invoked_callbacks (trace (run_example false [drops_annotations_then_fails]).2) = 1) /\
  (failed_callbacks (trace (run_example false [replaces_metadata_then_fails]).2) = 1 /\
   EvStamp "pepr.dev/id/c" "warning" ∈
     trace (run_example false [replaces_metadata_then_fails]).2 /\
   annotation "pepr.dev/id/c"
     <$> final_document (run_example false [replaces_metadata_then_fails])
     = Some JUndefined).
Proof.
  split; [vm_compute; done |].
  split; [vm_compute; reflexivity |]. split; [| vm_compute; reflexivity].
  apply (list_elem_of_lookup_2 _ 6). vm_compute. reflexivity.
Qed.

(** One callback threw, one warning. *)
Lemma warnings_count_failed_callbacks_witness :
  exists r,
    process_example false [labels_then_fails] = inr r /\
    Response.allowed r = true /\
    action_failed_warnings (Response.warnings r) =
      failed_callbacks (trace (run_example false [labels_then_fails]).2) /\
    length (Response.warnings r) =
      failed_callbacks (trace (run_example false [labels_then_fails]).2).
Proof.
  eexists. split; [vm_compute; reflexivity |].
  apply (warnings_count_failed_callbacks (shouldSkip no_ignore) reference_compare
           (module_config false) [labels_then_fails] create_pod1).
  - reflexivity.
  - vm_compute. reflexivity.
Defined.

(** A denied response. *)
Lemma response_allows_with_patch_or_denies_with_result_witness :
  exists r,
    process_example true [fails_then_labels] = inr r /\
    Response.patchType r = "JSONPatch" /\
    ((Response.allowed r = true /\ is_Some (Response.patch r) /\
      Response.result r = None) \/
     (Response.allowed r = false /\ is_Some (Response.result r) /\
      Response.patch r = None)).
Proof.
  eexists. split; [vm_compute; reflexivity |].
  apply (response_allows_with_patch_or_denies_with_result (shouldSkip no_ignore)
           reference_compare (module_config true) [fails_then_labels] create_pod1).
  vm_compute. reflexivity.
Defined.

(** ** The callbacks that ran *)

Lemma calls_app tr1 tr2 : calls (tr1 ++ tr2) = calls tr1 ++ calls tr2.
Proof. induction tr1 as [| [| |] tr1 IH]; simpl; by rewrite ?IH. Qed.

Lemma failures_app tr1 tr2 : failures (tr1 ++ tr2) = failures tr1 ++ failures tr2.
Proof. induction tr1 as [| [| | ? ? [|]] tr1 IH]; simpl; by rewrite ?IH. Qed.

Lemma progress_nothing {A} (c : Completion A) expected st st' :
  calls (trace st') = calls (trace st) ->
  (forall a, c = Normal a -> expected = []) ->
  progress expected st c st'.
Proof.
  intros Hcalls Hnormal. exists []. rewrite app_nil_r.
  split; [done |]. split; [apply prefix_nil |].
  intros a Ha. by rewrite (Hnormal a Ha).
Qed.

Lemma progress_all {A} (c : Completion A) expected st st' :
  calls (trace st') = calls (trace st) ++ expected ->
  progress expected st c st'.
Proof. intros Hcalls. by exists expected. Qed.

(** Executions in sequence add up. *)
Lemma wp_bind_progress {A B} (m : Exec A) (f : A -> Exec B) e1 e2 st :
  wp m (progress e1 st) st ->
  (forall a st', wp (f a) (progress e2 st') st') ->
  wp (exec_bind m f) (progress (e1 ++ e2) st) st.
Proof.
  intros Hm Hf. unfold wp, exec_bind in *.
  destruct (m st) as [[a | r | e] st1]; simpl in *.
  - destruct Hm as (d1 & Hc1 & _ & Hall1). specialize (Hall1 a eq_refl). subst d1.
    specialize (Hf a st1). destruct (f a st1) as [c st2]. simpl in *.
    destruct Hf as (d2 & Hc2 & Hp2 & Hall2).
    exists (e1 ++ d2). rewrite Hc2, Hc1, app_assoc.
    split; [done |]. split; [by apply prefix_app |].
    intros b Hb. by rewrite (Hall2 b Hb).
  - destruct Hm as (d1 & Hc1 & Hp1 & _). exists d1.
    split; [done |]. split; [by apply prefix_app_r | done].
  - destruct Hm as (d1 & Hc1 & Hp1 & _). exists d1.
    split; [done |]. split; [by apply prefix_app_r | done].
Qed.

Lemma wp_for_of_progress {A} (xs : list A) (body : A -> Exec unit)
    (expected : A -> list (string * Binding.t)) :
  (forall x st, wp (body x) (progress (expected x) st) st) ->
  forall st, wp (for_of xs body) (progress (flat_map expected xs) st) st.
Proof.
  intros Hbody. induction xs as [| x xs IH]; intros st; simpl.
  - by apply progress_all, eq_sym, app_nil_r.
  - apply wp_bind_progress; [apply Hbody | intros _ st'; apply IH].
Qed.

Section Calls.

Variable shouldSkipRequest : Binding.t -> Request.t -> bool.
Variable compare : Json -> Json -> error + list PatchOperation.
Variable config : ModuleConfig.t.
Variable req : Request.t.

Lemma process_binding_progress name prefix action st :
  wp (process_binding shouldSkipRequest config req name prefix action)
     (progress (if shouldSkipRequest action req then [] else [(name, action)]) st) st.
Proof.
  unfold process_binding.
  destruct (shouldSkipRequest action req) eqn:Hskip.
  { by apply progress_all, eq_sym, app_nil_r. }
  repeat wp_step.
  all: first
    [ apply progress_all; cbn; rewrite ?calls_app; cbn;
      by rewrite ?app_nil_r
    | apply progress_nothing; [cbn; rewrite ?calls_app; cbn; by rewrite ?app_nil_r | done]
    | exists [(name, action)]; cbn; rewrite ?calls_app; cbn; rewrite ?app_nil_r;
      by repeat split ].
Qed.

Lemma dispatch_progress capabilities :
  wp (dispatch shouldSkipRequest config req capabilities)
     (progress (let_through shouldSkipRequest req capabilities) (initial_state req))
     (initial_state req).
Proof.
  unfold dispatch.
  apply (wp_bind_progress _ _ [] (let_through shouldSkipRequest req capabilities)).
  { by apply progress_all. }
  intros _ st. unfold let_through. apply wp_for_of_progress.
  intros c st'. unfold process_capability.
  apply (wp_bind_progress _ _ []
           (let_through_bindings shouldSkipRequest req (Capability.name c)
              (Capability.bindings c))).
  { apply progress_all. cbn. by rewrite calls_app, !app_nil_r. }
  intros _ st''. unfold let_through_bindings. apply wp_for_of_progress.
  intros action st3. apply process_binding_progress.
Qed.

Lemma finish_progress st : wp (finish compare req) (progress [] st) st.
Proof.
  unfold finish. wp_step. wp_step. wp_step. wp_step.
  apply wp_diff.
  - intros e _. apply progress_all. by rewrite app_nil_r.
  - intros doc patches _ _. repeat wp_step.
    apply progress_all. cbn. by rewrite calls_app, !app_nil_r.
Qed.

(** The history of a run against the bindings let through: a prefix, and all
    of them when the loops were completed. *)
Lemma processor_run_progress capabilities :
  calls (trace (processor_run shouldSkipRequest compare config capabilities req).2)
    `prefix_of` let_through shouldSkipRequest req capabilities /\
  (Response.allowed
     (response (processor_run shouldSkipRequest compare config capabilities req).2) = true ->
   calls (trace (processor_run shouldSkipRequest compare config capabilities req).2) =
     let_through shouldSkipRequest req capabilities).
Proof.
  unfold processor_run. rewrite processor_body_split.
  pose proof (dispatch_progress capabilities) as Hd.
  pose proof (dispatch_inv shouldSkipRequest config req capabilities) as Hi.
  unfold wp, exec_bind in *.
  destruct (dispatch _ _ _ _ _) as [[[] | r | e] st]; simpl in *.
  - destruct Hd as (d & Hc & _ & Hall). specialize (Hall tt eq_refl). subst d.
    simpl in Hc. pose proof (finish_progress st) as Hf. unfold wp in Hf.
    destruct (finish compare req st) as [c st']. simpl in *.
    destruct Hf as (d & Hc' & Hp & _). apply prefix_nil_inv in Hp. subst d.
    rewrite Hc', Hc, app_nil_r. done.
  - destruct Hd as (d & Hc & Hp & _). simpl in Hc. rewrite Hc. split; [done |].
    destruct Hi as (-> & _ & _ & _ & Hfalse & _). congruence.
  - destruct Hd as (d & Hc & Hp & _). simpl in Hc. rewrite Hc. split; [done |].
    destruct Hi as (Hfalse & _). congruence.
Qed.

End Calls.

(** ** More about the processor *)

Section Warnings.

Variable shouldSkipRequest : Binding.t -> Request.t -> bool.
Variable compare : Json -> Json -> error + list PatchOperation.
Variable config : ModuleConfig.t.
Variable req : Request.t.

Lemma process_binding_warnings name prefix action st :
  ModuleConfig.rejectOnError config = false ->
  warnings_report_failures st ->
  wp (process_binding shouldSkipRequest config req name prefix action)
     (post (fun _ => warnings_report_failures) (fun _ _ => False) (fun _ _ => True)) st.
Proof.
  intros Hpolicy HW. unfold process_binding. rewrite Hpolicy.
  apply wp_if; intros Hskip; [by apply wp_ret |].
  repeat wp_step; try stamp_twice; try done.
  all: unfold warnings_report_failures in *; cbn;
    rewrite ?failures_app; cbn; rewrite ?app_nil_r, ?fmap_app; cbn;
    by rewrite ?HW.
Qed.

Lemma dispatch_warnings capabilities :
  ModuleConfig.rejectOnError config = false ->
  wp (dispatch shouldSkipRequest config req capabilities)
     (post (fun _ => warnings_report_failures) (fun _ _ => False) (fun _ _ => True))
     (initial_state req).
Proof.
  intros Hpolicy. unfold dispatch. wp_step. wp_step. wp_step.
  apply wp_for_of; [done |].
  intros c st _ HW. unfold process_capability. wp_step. wp_step. wp_step.
  apply wp_for_of.
  { unfold warnings_report_failures in *. cbn.
    by rewrite failures_app, app_nil_r. }
  intros action st' _ HW'. by apply process_binding_warnings.
Qed.

Lemma processor_run_warnings capabilities :
  ModuleConfig.rejectOnError config = false ->
  wp (processor_body shouldSkipRequest compare config capabilities req)
     (post (fun _ _ => False) (fun r _ =>
             Response.warnings r =
               (fun e => "Action failed: " +:+ e) <$>
                 failures (trace (processor_run shouldSkipRequest compare config
                                    capabilities req).2))
           (fun _ _ => True))
     (initial_state req).
Proof.
  intros Hpolicy.
  assert (Hwp : wp (processor_body shouldSkipRequest compare config capabilities req)
            (post (fun _ _ => False)
                  (fun r st => r = response st /\ warnings_report_failures st)
                  (fun _ _ => True)) (initial_state req)).
  { unfold wp. rewrite processor_body_split. apply wp_bind.
    eapply wp_mono; [by apply dispatch_warnings |].
    intros [[] | r | e] st HW; simpl in *; try done.
    unfold finish. wp_step. wp_step. wp_step. wp_step.
    apply wp_diff; [done |]. intros doc patches _ _. repeat wp_step.
    split; [done |]. unfold warnings_report_failures in *. cbn.
    by rewrite !failures_app, !app_nil_r. }
  unfold wp in *. unfold processor_run.
  destruct (processor_body _ _ _ _ _ _) as [[[] | r | e] st]; simpl in *; try done.
  destruct Hwp as [-> HW]. exact HW.
Qed.

End Warnings.

Section MoreResponses.

Variable shouldSkipRequest : Binding.t -> Request.t -> bool.
Variable compare : Json -> Json -> error + list PatchOperation.

(** However a run ends, the callbacks it invoked are the first of the
    bindings the filter lets through, each once, in the order of the
    capabilities and of their registration: a binding the filter skips is
    never invoked, and no binding is invoked before an earlier one. *)
Theorem callbacks_run_in_registration_order config capabilities req :
  calls (trace (processor_run shouldSkipRequest compare config capabilities req).2)
    `prefix_of` let_through shouldSkipRequest req capabilities.
Proof.
  apply (processor_run_progress shouldSkipRequest compare config req capabilities).
Qed.

(** A response that allows the request comes from a run that invoked the
    callback of every binding the filter lets through, exactly once and in
    registration order. *)
Theorem allowed_response_ran_every_binding_let_through config capabilities req r :
  processor shouldSkipRequest compare config capabilities req = inr r ->
  Response.allowed r = true ->
  calls (trace (processor_run shouldSkipRequest compare config capabilities req).2) =
    let_through shouldSkipRequest req capabilities.
Proof.
  intros Hr Hallowed.
  apply (processor_run_progress shouldSkipRequest compare config req capabilities).
  destruct (processor_cases shouldSkipRequest compare config capabilities req)
    as [(r' & Hr' & [Hrej | Hans]) | (e & He & _)]; [| | congruence].
  - assert (r' = r) as -> by congruence. unfold rejected in Hrej.
    destruct Hrej as (<- & _). done.
  - assert (r' = r) as -> by congruence. unfold answered in Hans.
    destruct Hans as (<- & _). done.
Qed.

(** With [rejectOnError = false], the warnings of a response are, in order,
    the errors of the callbacks that threw, each rendered after
    [Action failed: ]. *)
Theorem warnings_are_the_failures_in_order config capabilities req r :
  ModuleConfig.rejectOnError config = false ->
  processor shouldSkipRequest compare config capabilities req = inr r ->
  Response.warnings r =
    (fun e => "Action failed: " +:+ e) <$>
      failures (trace (processor_run shouldSkipRequest compare config capabilities req).2).
Proof.
  intros Hpolicy Hr.
  pose proof (processor_run_warnings shouldSkipRequest compare config req capabilities
                Hpolicy) as Hwp.
  unfold wp in Hwp. unfold processor in Hr. unfold processor_run in Hr.
  destruct (processor_body _ _ _ _ _ _) as [[[] | r' | e] st]; simpl in *; try done.
  by injection Hr as <-.
Qed.

(** With [rejectOnError = true], a response that allows the request has no
    warning, and a response that denies it has exactly one. *)
Theorem reject_policy_warnings config capabilities req r :
  ModuleConfig.rejectOnError config = true ->
  processor shouldSkipRequest compare config capabilities req = inr r ->
  (Response.allowed r = true /\ Response.warnings r = []) \/
  (Response.allowed r = false /\ length (Response.warnings r) = 1).
Proof.
  intros Hpolicy Hr.
  destruct (processor_cases shouldSkipRequest compare config capabilities req)
    as [(r' & Hr' & [Hrej | Hans]) | (e & He & _)]; [| | congruence].
  - assert (r' = r) as -> by congruence. unfold rejected in Hrej. right. tauto.
  - assert (r' = r) as -> by congruence. unfold answered in Hans. left.
    destruct Hans as (_ & _ & _ & Hallowed & _ & _ & Hlen & Hzero & _).
    split; [done |]. apply nil_length_inv. rewrite Hlen. auto.
Qed.

End MoreResponses.

(** ** Reading the store *)

Lemma assoc_get_set {A} k (v : A) kvs : assoc_get k (assoc_set k v kvs) = Some v.
Proof.
  induction kvs as [| [k' v'] kvs IH]; simpl.
  - by rewrite String.eqb_refl.
  - destruct (String.eqb k k') eqn:Hk; simpl.
    + by rewrite String.eqb_refl.
    + by rewrite Hk.
Qed.

Lemma assoc_get_set_ne {A} k k' (v : A) kvs :
  k <> k' -> assoc_get k (assoc_set k' v kvs) = assoc_get k kvs.
Proof.
  intros Hne. induction kvs as [| [k'' v''] kvs IH]; simpl.
  - by apply String.eqb_neq in Hne as ->.
  - destruct (String.eqb k' k'') eqn:Hk; simpl.
    + apply String.eqb_eq in Hk as <-. by apply String.eqb_neq in Hne as ->.
    + by rewrite IH.
Qed.

(** What a stamp wrote reads back through the same metadata object. *)
Lemma stamp_store_read h metadata identifier status h' :
  identifier <> "annotations" ->
  stamp_store h metadata identifier status = inr h' ->
  exists a,
    get_prop h' metadata "annotations" = inr a /\
    get_prop h' a identifier = inr (VString status).
Proof.
  intros Hne. unfold stamp_store.
  destruct (get_prop h metadata "annotations") as [e | a] eqn:Hget; [done |].
  unfold set_prop. destruct a as [| | | | | l]; try done.
  destruct (h !! l) as [o |] eqn:Hl; [| done]. intros [= <-].
  assert (Hlt : l < length h) by by eapply lookup_lt_Some.
  exists (VRef l). split.
  - unfold get_prop in *. destruct metadata as [| | | | | m]; try done.
    destruct (decide (m = l)) as [-> | Hml].
    + rewrite list_lookup_insert_eq by done. simpl.
      rewrite assoc_get_set_ne by done.
      destruct (h !! l) as [om |]; [| done]. congruence.
    + rewrite list_lookup_insert_ne by done. exact Hget.
  - simpl. rewrite list_lookup_insert_eq by done. simpl.
    by rewrite assoc_get_set.
Qed.

Lemma identifier_of_not_annotations config name :
  identifier_of config name <> "annotations".
Proof. done. Qed.

(** The members of a document just built, as the store holds them. *)
Lemma alloc_json_undefined j h : (alloc_json j h).2 = VUndefined -> j = JUndefined.
Proof.
  destruct j as [| | b | n | s | items | members]; simpl; try done.
  - by destruct (alloc_all alloc_json items h).
  - by destruct (alloc_all _ members h).
Qed.

Lemma alloc_json_null j h : (alloc_json j h).2 = VNull -> j = JNull.
Proof.
  destruct j as [| | b | n | s | items | members]; simpl; try done.
  - by destruct (alloc_all alloc_json items h).
  - by destruct (alloc_all _ members h).
Qed.

Lemma alloc_all_member k members h :
  match assoc_get k members with
  | None =>
      assoc_get k
        (alloc_all (fun (kv : string * Json) (h : heap) =>
                      let '(k, j) := kv in
                      let '(h1, v) := alloc_json j h in
                      (h1, (k, v))) members h).2 = None
  | Some j =>
      exists h1,
        assoc_get k
          (alloc_all (fun (kv : string * Json) (h : heap) =>
                        let '(k, j) := kv in
                        let '(h1, v) := alloc_json j h in
                        (h1, (k, v))) members h).2 = Some (alloc_json j h1).2
  end.
Proof.
  revert h. induction members as [| [k' j] members IH]; intros h; simpl; [done |].
  destruct (alloc_json j h) as [h1 v] eqn:Hj.
  specialize (IH h1).
  destruct (alloc_all _ members h1) as [h2 kvs]. simpl in *.
  destruct (String.eqb k k'); [| done].
  exists h. by rewrite Hj.
Qed.

(** Reading a property of a document just built. *)
Lemma get_prop_alloc_json j h k :
  match j with
  | JUndefined =>
      get_prop (alloc_json j h).1 (alloc_json j h).2 k =
        inl (TypeError ("Cannot read properties of undefined (reading '" +:+ k +:+ "')"))
  | JNull =>
      get_prop (alloc_json j h).1 (alloc_json j h).2 k =
        inl (TypeError ("Cannot read properties of null (reading '" +:+ k +:+ "')"))
  | _ =>
      exists m, get_prop (alloc_json j h).1 (alloc_json j h).2 k = inr m /\
        (m = VUndefined -> json_member k j = JUndefined) /\
        (m = VNull -> json_member k j = JNull) /\
        (json_member k j = JUndefined -> m = VUndefined) /\
        (json_member k j = JNull -> m = VNull)
  end.
Proof.
  destruct j as [| | b | n | s | items | members]; simpl; try done.
  1-3: by exists VUndefined.
  - destruct (alloc_all alloc_json items h) as [h' vs]. simpl.
    rewrite lookup_app_r by done. rewrite Nat.sub_diag. simpl.
    by exists VUndefined.
  - pose proof (alloc_all_member k members h) as Hk.
    destruct (alloc_all _ members h) as [h' kvs]. simpl in *.
    rewrite lookup_app_r by done. rewrite Nat.sub_diag. simpl.
    eexists. split; [done |].
    destruct (assoc_get k members) as [j |].
    + destruct Hk as (h1 & ->). simpl. repeat split.
      * apply alloc_json_undefined.
      * apply alloc_json_null.
      * by intros ->.
      * by intros ->.
    + rewrite Hk. by simpl.
Qed.

Section Metadata.

Variable shouldSkipRequest : Binding.t -> Request.t -> bool.
Variable compare : Json -> Json -> error + list PatchOperation.
Variable config : ModuleConfig.t.
Variable req : Request.t.

(** The first two reads of a step, on the wrapper as it is built. *)
Lemma reads_of_lacking_metadata :
  lacks_metadata (Request.object req) ->
  match get_prop (store (RequestWrapper req)) (Raw (RequestWrapper req)) "metadata" with
  | inl e => e = metadata_error (Request.object req)
  | inr metadata =>
      get_prop (store (RequestWrapper req)) metadata "annotations" =
        inl (metadata_error (Request.object req))
  end.
Proof.
  intros Hlacks. unfold RequestWrapper.
  pose proof (get_prop_alloc_json (Request.object req) [] "metadata") as Hget.
  destruct (alloc_json (Request.object req) []) as [h v]. simpl in *.
  unfold metadata_error, lacks_metadata in *.
  destruct (Request.object req) as [| | b | n | s | items | members];
    try (by rewrite Hget);
    destruct Hget as (m & -> & _ & _ & Hu & Hn);
    (destruct Hlacks as [Hl | Hl];
     [rewrite (Hu Hl) | rewrite (Hn Hl)]; by rewrite Hl).
Qed.

Lemma process_binding_lacking name prefix action st :
  lacks_metadata (Request.object req) ->
  wrapped st = RequestWrapper req /\ calls (trace st) = [] ->
  wp (process_binding shouldSkipRequest config req name prefix action)
     (post (fun _ st' => wrapped st' = RequestWrapper req /\ calls (trace st') = [])
           (fun _ _ => False)
           (fun e st' => e = metadata_error (Request.object req) /\
                         calls (trace st') = [])) st.
Proof.
  intros Hlacks [Hw Hc]. pose proof (reads_of_lacking_metadata Hlacks) as Hreads.
  unfold process_binding. apply wp_if; intros Hskip; [by apply wp_ret |].
  do 7 wp_step.
  apply wp_get_field; cbn; rewrite Hw; intros x Hx; rewrite Hx in Hreads.
  { split; [done |]. by rewrite calls_app, Hc. }
  wp_step.
  apply wp_get_field; cbn; rewrite Hw; intros y Hy; [| congruence].
  split; [congruence |]. by rewrite calls_app, Hc.
Qed.

Lemma dispatch_lacking capabilities :
  lacks_metadata (Request.object req) ->
  wp (dispatch shouldSkipRequest config req capabilities)
     (post (fun _ st' => calls (trace st') = [])
           (fun _ _ => False)
           (fun e st' => e = metadata_error (Request.object req) /\
                         calls (trace st') = [])) (initial_state req).
Proof.
  intros Hlacks. unfold dispatch. wp_step. wp_step. wp_step.
  eapply wp_mono.
  { apply (wp_for_of _ _
             (fun st' => wrapped st' = RequestWrapper req /\ calls (trace st') = [])).
    { done. }
    intros c st _ [Hw Hc]. unfold process_capability. wp_step. wp_step. wp_step.
    apply wp_for_of.
    { split; [done |]. cbn. by rewrite calls_app, Hc. }
    intros action st' _ HI. by apply process_binding_lacking. }
  intros [[] | r | e] st'; simpl; tauto.
Qed.

End Metadata.

Section Status.

Variable shouldSkipRequest : Binding.t -> Request.t -> bool.
Variable compare : Json -> Json -> error + list PatchOperation.
Variable config : ModuleConfig.t.
Variable req : Request.t.

(** A request whose object has no metadata (the object is absent or [null],
    as in the review of a DELETE, or its [metadata] is) makes the processor
    throw as soon as the filter lets a binding through: the caller gets a
    TypeError, that of the failed read, and no response; no callback was
    invoked. *)
Theorem object_without_metadata_escapes capabilities :
  lacks_metadata (Request.object req) ->
  let_through shouldSkipRequest req capabilities <> [] ->
  (exists message,
     processor shouldSkipRequest compare config capabilities req =
       inl (TypeError message)) /\
  calls (trace (processor_run shouldSkipRequest compare config capabilities req).2) = [].
Proof.
  intros Hlacks Hsome.
  cut (processor shouldSkipRequest compare config capabilities req =
         inl (metadata_error (Request.object req)) /\
       calls (trace (processor_run shouldSkipRequest compare config capabilities req).2) = []).
  { intros [-> Hcalls]. split; [| done]. unfold metadata_error.
    repeat case_match; by eexists. }
  pose proof (dispatch_lacking shouldSkipRequest config req capabilities Hlacks) as Hl.
  pose proof (dispatch_progress shouldSkipRequest config req capabilities) as Hd.
  unfold processor, processor_run. rewrite processor_body_split.
  unfold wp, exec_bind in *.
  destruct (dispatch _ _ _ _ _) as [[[] | r | e] st]; simpl in *.
  - destruct Hd as (d & Hc & _ & Hall). specialize (Hall tt eq_refl). subst d.
    simpl in Hc. congruence.
  - done.
  - destruct Hl as [-> Hc]. done.
Qed.

Lemma process_binding_status name prefix action st :
  shouldSkipRequest action req = false ->
  wp (process_binding shouldSkipRequest config req name prefix action)
     (post (fun _ st' =>
              exists metadata a status,
                get_prop (store (wrapped st)) (Raw (wrapped st)) "metadata" =
                  inr metadata /\
                get_prop (store (wrapped st')) metadata "annotations" = inr a /\
                get_prop (store (wrapped st')) a (identifier_of config name) =
                  inr (VString status) /\
                final_status config st st' status)
           (fun _ _ => True) (fun _ _ => True)) st.
Proof.
  intros Hskip. unfold process_binding. rewrite Hskip.
  repeat wp_keep; try done; try stamp_twice.
  all: match goal with
       | H : stamp_store _ ?m _ ?s = inr ?h |- _ =>
           destruct (stamp_store_read _ _ _ _ _
                       (identifier_of_not_annotations config name) H)
             as (a' & Ha' & Hs');
           exists m, a', s; cbn; repeat split; try done
       end.
  all: unfold final_status; cbn; rewrite ?failures_app; cbn;
    rewrite ?app_nil_r; eauto 6.
Qed.

(** After the step of a binding the filter lets through has completed, the
    annotation under the key of its capability holds the final status of the
    callback, read through the metadata object the step started with:
    [succeeded] when the callback returned and [warning] when it threw (which
    takes [rejectOnError = false]); the earlier [started] is overwritten. *)
Theorem completed_step_leaves_final_status name prefix action st st' :
  shouldSkipRequest action req = false ->
  process_binding shouldSkipRequest config req name prefix action st = (Normal tt, st') ->
  exists metadata a status,
    get_prop (store (wrapped st)) (Raw (wrapped st)) "metadata" = inr metadata /\
    get_prop (store (wrapped st')) metadata "annotations" = inr a /\
    get_prop (store (wrapped st')) a (identifier_of config name) = inr (VString status) /\
    final_status config st st' status.
Proof.
  intros Hskip Hrun. pose proof (process_binding_status name prefix action st Hskip) as Hwp.
  unfold wp in Hwp. by rewrite Hrun in Hwp.
Qed.

End Status.

(** ** The manifests of a webhook *)

Section Manifests.

Variable gzipSync : Buffer -> Buffer.
Variable base64 : Buffer -> string.
Variable sha256_hex : Buffer -> string.
Variable w : Webhook.t.


(** The service and the network policy select the pods of the deployment:
    the selector of the service, the pod selector of the policy and the
    selector of the deployment are the labels of the pod template, all in one
    namespace; the service forwards its port to the port the container
    listens on and is probed at, and the policy admits the port of the
    service. *)
Theorem service_and_policy_select_the_pods hash :
  let labels := JObject [("app", JString (Webhook.name w))] in
  json_at ["spec"; "template"; "metadata"; "labels"] (Webhook.deployment w hash) = labels /\
  json_at ["spec"; "selector"; "matchLabels"] (Webhook.deployment w hash) = labels /\
  json_at ["spec"; "selector"] (Webhook.service w) = labels /\
  json_at ["spec"; "podSelector"; "matchLabels"] (Webhook.networkPolicy w) = labels /\
  same_string (metadata_namespace (Webhook.service w))
              (metadata_namespace (Webhook.deployment w hash)) /\
  same_string (metadata_namespace (Webhook.networkPolicy w))
              (metadata_namespace (Webhook.deployment w hash)) /\
  (exists port,
     json_at ["targetPort"] (json_item 0 (json_at ["spec"; "ports"] (Webhook.service w))) =
       JNumber port /\
     json_at ["containerPort"]
       (json_item 0 (json_at ["ports"] (container_of (Webhook.deployment w hash)))) =
       JNumber port /\
     json_at ["livenessProbe"; "httpGet"; "port"]
       (container_of (Webhook.deployment w hash)) = JNumber port) /\
  (exists port,
     json_at ["port"] (json_item 0 (json_at ["spec"; "ports"] (Webhook.service w))) =
       JNumber port /\
     json_at ["port"]
       (json_item 0
          (json_at ["ports"]
             (json_item 0 (json_at ["spec"; "ingress"] (Webhook.networkPolicy w))))) =
       JNumber port).
Proof.
  split_and!; try reflexivity; try (eexists; split; reflexivity);
    eexists; split_and!; reflexivity.
Qed.

(** The deployment mounts the secrets that are generated: its two volumes
    are the TLS secret and the module secret by name, in the namespace of the
    deployment, and each volume is mounted by the container. *)
Theorem deployment_mounts_the_generated_secrets hash data hash' :
  same_string (json_at ["secret"; "secretName"] (volume_of 0 (Webhook.deployment w hash)))
              (metadata_name (Webhook.tlsSecret w)) /\
  same_string (json_at ["secret"; "secretName"] (volume_of 1 (Webhook.deployment w hash)))
              (metadata_name (Webhook.moduleSecret gzipSync base64 w data hash')) /\
  same_string (metadata_namespace (Webhook.tlsSecret w))
              (metadata_namespace (Webhook.deployment w hash)) /\
  same_string (metadata_namespace (Webhook.moduleSecret gzipSync base64 w data hash'))
              (metadata_namespace (Webhook.deployment w hash)) /\
  same_string (json_at ["name"]
                 (json_item 0 (json_at ["volumeMounts"]
                                 (container_of (Webhook.deployment w hash)))))
              (json_at ["name"] (volume_of 0 (Webhook.deployment w hash))) /\
  same_string (json_at ["name"]
                 (json_item 1 (json_at ["volumeMounts"]
                                 (container_of (Webhook.deployment w hash)))))
              (json_at ["name"] (volume_of 1 (Webhook.deployment w hash))).
Proof. repeat split; eexists; split; reflexivity. Qed.

(** In the array [allYaml] dumps, the controller is started with the hash
    under which the module secret holds the code: the third word of the
    command of the deployment is the digest of the code, and the only key of
    the data of the module secret is [module-<that digest>.js.gz]. *)
Theorem all_yaml_starts_the_controller_with_the_hash_of_the_secret code rs :
  Webhook.resources gzipSync base64 sha256_hex w code = inr rs ->
  exists dep secret payload,
    rs !! 7 = Some dep /\ rs !! 9 = Some secret /\ length rs = 10 /\
    json_item 2 (json_at ["command"] (container_of dep)) = JString (sha256_hex code) /\
    json_at ["data"] secret =
      JObject [("module-" +:+ sha256_hex code +:+ ".js.gz", JString payload)] /\
    same_string (json_at ["secret"; "secretName"] (volume_of 1 dep)) (metadata_name secret).
Proof.
  unfold Webhook.resources. destruct (Webhook.mutatingWebhook w) as [e | wh]; [done |].
  intros [= <-]. do 3 eexists. repeat split. eexists. split; reflexivity.
Qed.

(** The selectors of the webhook: the namespace selector and the object
    selector hold the same requirements, [peprIgnore] first; an empty list of
    namespaces to ignore adds nothing to it, and a list that is not empty
    adds one [NotIn] requirement on the name of the namespace, with the
    listed namespaces as its values. *)
Theorem webhook_selectors_exclude_the_ignored_namespaces wh namespaces :
  Webhook.mutatingWebhook w = inr wh ->
  Webhook.alwaysIgnore_namespaces (Webhook.config w) = Some namespaces ->
  json_at ["namespaceSelector"; "matchExpressions"] (webhook_of wh) =
    json_at ["objectSelector"; "matchExpressions"] (webhook_of wh) /\
  json_at ["namespaceSelector"; "matchExpressions"] (webhook_of wh) =
    JArray (peprIgnore ::
            match namespaces with
            | [] => []
            | _ :: _ =>
                [JObject [("key", JString "kubernetes.io/metadata.name");
                          ("operator", JString "NotIn");
                          ("values", JArray (JString <$> namespaces))]]
            end).
Proof.
  unfold Webhook.mutatingWebhook. intros Hwh Hns. rewrite Hns in Hwh.
  injection Hwh as <-. split; [reflexivity |]. by destruct namespaces.
Qed.

(** Every manifest [allYaml] dumps is either of a kind that lives in no
    namespace and names none, or lies in the namespace that the first
    manifest of the array creates. *)
Theorem manifests_lie_in_the_namespace_created_first code rs :
  Webhook.resources gzipSync base64 sha256_hex w code = inr rs ->
  rs !! 0 = Some (Webhook.namespace w) /\
  json_at ["kind"] (Webhook.namespace w) = JString "Namespace" /\
  forall r, r ∈ rs ->
    (cluster_scoped r /\ metadata_namespace r = JUndefined) \/
    same_string (metadata_namespace r) (metadata_name (Webhook.namespace w)).
Proof.
  unfold Webhook.resources. pose proof (eq_refl (Webhook.mutatingWebhook w)) as Hwh.
  unfold Webhook.mutatingWebhook at 2 in Hwh.
  destruct (Webhook.mutatingWebhook w) as [e | wh]; [done |].
  intros [= <-]. split; [done |]. split; [done |].
  intros r Hr. unfold cluster_scoped.
  repeat (apply elem_of_cons in Hr as [-> | Hr]);
    try (by right; eexists; split; reflexivity);
    try (left; split; [| reflexivity]; tauto).
  - destruct (Webhook.alwaysIgnore_namespaces _); [| done].
    injection Hwh as ->. left. split; [| reflexivity]. tauto.
  - by apply elem_of_nil in Hr.
Qed.

(** The Zarf package is made for the manifests of [allYaml]: it lists the
    image of the container of the deployment as its only image, deploys its
    manifest file into the namespace the manifests create, and is named as
    the deployment is. *)
Theorem zarf_package_lists_the_image_of_the_deployment path hash :
  let component := json_item 0 (json_at ["components"] (Webhook.zarfCfg w path)) in
  let manifest := json_item 0 (json_at ["manifests"] component) in
  (exists controller,
     json_at ["image"] (container_of (Webhook.deployment w hash)) = JString controller /\
     json_at ["images"] component = JArray [JString controller]) /\
  json_at ["files"] manifest = JArray [JString path] /\
  same_string (json_at ["namespace"] manifest) (metadata_name (Webhook.namespace w)) /\
  same_string (metadata_name (Webhook.zarfCfg w path))
              (metadata_name (Webhook.deployment w hash)).
Proof.
  split_and!; try reflexivity; try (eexists; split; reflexivity).
Qed.

End Manifests.

Section ClientConfig.

Variable genTLS : string -> TLSOut.t.

(** How the API server reaches the webhook.  With a host (given and not
    empty) the client configuration holds the URL [https://<host>:3000/mutate]
    and no service, and the certificates are generated for that host; without
    one it holds no URL but the service by its name and namespace, and the
    certificates are generated for the DNS name of that service,
    [<name>.<namespace>.svc].  Either way the CA bundle of the webhook and
    the TLS secret come from the same generated certificates. *)
Theorem webhook_client_reaches_what_the_certificate_names cfg hst wh :
  let w := Webhook.constructor genTLS cfg hst in
  let client := json_at ["clientConfig"] (webhook_of wh) in
  Webhook.mutatingWebhook w = inr wh ->
  json_at ["caBundle"] client = JString (TLSOut.ca (Webhook._tls w)) /\
  json_at ["data"; "tls.crt"] (Webhook.tlsSecret w) = JString (TLSOut.crt (Webhook._tls w)) /\
  json_at ["data"; "tls.key"] (Webhook.tlsSecret w) = JString (TLSOut.key (Webhook._tls w)) /\
  ((exists h,
      hst = Some h /\ h <> "" /\
      Webhook._tls w = genTLS h /\
      json_at ["url"] client = JString ("https://" +:+ h +:+ ":3000/mutate") /\
      json_at ["service"] client = JUndefined) \/
   (exists n ns,
      (hst = None \/ hst = Some "") /\
      metadata_name (Webhook.service w) = JString n /\
      metadata_namespace (Webhook.service w) = JString ns /\
      Webhook._tls w = genTLS (n +:+ "." +:+ ns +:+ ".svc") /\
      json_at ["url"] client = JUndefined /\
      json_at ["service"; "name"] client = JString n /\
      json_at ["service"; "namespace"] client = JString ns /\
      json_at ["service"; "path"] client = JString "/mutate")).
Proof.
  intros w client. subst w client. unfold Webhook.mutatingWebhook. simpl.
  destruct (Webhook.alwaysIgnore_namespaces cfg) as [namespaces |]; [| done].
  intros [= <-]. split; [reflexivity |]. split; [reflexivity |]. split; [reflexivity |].
  unfold Webhook.host_given. simpl.
  destruct hst as [h |]; simpl.
  - destruct (String.eqb h "") eqn:Hh; simpl.
    + apply String.eqb_eq in Hh as ->. right. do 2 eexists.
      split; [by right |]. by repeat split.
    + apply String.eqb_neq in Hh. left. exists h. by repeat split.
  - right. do 2 eexists. split; [by left |]. by repeat split.
Qed.

End ClientConfig.

(** ** The deployment of a webhook *)

Lemma api_calls_app tr1 tr2 : api_calls (tr1 ++ tr2) = api_calls tr1 ++ api_calls tr2.
Proof.
  induction tr1 as [| [level message | call outcome] tr1 IH]; simpl; [done | done |].
  by rewrite IH.
Qed.

Lemma elem_of_api_calls call outcome tr :
  (call, outcome) ∈ api_calls tr <-> Called call outcome ∈ tr.
Proof.
  induction tr as [| [level message | call' outcome'] tr IH]; simpl.
  - split; intros H; by apply elem_of_nil in H.
  - rewrite elem_of_cons, IH. split; [tauto | intros [? | ?]; [done | tauto]].
  - rewrite !elem_of_cons, IH. split; (intros [H | H]; [left; congruence | by right]).
Qed.

(** *** Rules for [adds] *)

Lemma adds_bind {A B} (P1 P2 P3 : option error -> list Step -> Prop)
    (m : Async A) (k : A -> Async B) :
  adds P1 m -> (forall a, adds P2 (k a)) ->
  (forall e a1, P1 (Some e) a1 -> P3 (Some e) a1) ->
  (forall out a1 a2, P1 None a1 -> P2 out a2 -> P3 out (a1 ++ a2)) ->
  adds P3 (async_bind m k).
Proof.
  intros Hm Hk Hfail Hseq tr. unfold async_bind.
  destruct (Hm tr) as (a1 & Htr & HP1).
  destruct (m tr) as [[e | a] tr']; simpl in *; subst tr'.
  - exists a1. split; [done |]. by apply Hfail.
  - destruct (Hk a (tr ++ a1)) as (a2 & Htr & HP2).
    exists (a1 ++ a2). rewrite Htr, app_assoc. split; [done |]. by apply Hseq.
Qed.

Lemma adds_log (P : option error -> list Step -> Prop) level message :
  P None [Logged level message] -> adds P (Log level message).
Proof. intros HP tr. by exists [Logged level message]. Qed.

Lemma adds_resolve {A} (P : option error -> list Step -> Prop) (a : A) :
  P None [] -> adds P (resolve a).
Proof. intros HP tr. exists []. by rewrite app_nil_r. Qed.

(** A line logged first changes nothing to the calls. *)
Lemma adds_after_log {A} (Q : option error -> list (ApiCall * option error) -> Prop)
    level message (k : Async A) :
  adds (fun out added => Q out (api_calls added)) k ->
  adds (fun out added => Q out (api_calls added)) (async_bind (Log level message) (fun _ => k)).
Proof.
  intros Hk.
  apply (adds_bind (fun out added => out = None /\ api_calls added = [])
           (fun out added => Q out (api_calls added))).
  - by apply adds_log.
  - by intros _.
  - by intros e a1 [? _].
  - intros out a1 a2 [_ Ha1] HQ. by rewrite api_calls_app, Ha1.
Qed.

(** A block followed by the rest of the chain. *)
Lemma adds_block_then {A} b rest (m : Async unit) (k : Async A) :
  adds (fun out added => block_shape b out (api_calls added)) m ->
  adds (fun out added => chain rest out (api_calls added)) k ->
  adds (fun out added => chain (b :: rest) out (api_calls added))
       (async_bind m (fun _ => k)).
Proof.
  intros Hm Hk.
  apply (adds_bind (fun out added => block_shape b out (api_calls added))
           (fun out added => chain rest out (api_calls added))).
  - done.
  - by intros _.
  - intros e a1 Hb. simpl. left. by exists e.
  - intros out a1 a2 Hb Hrest. simpl. right.
    exists (api_calls a1), (api_calls a2). by rewrite api_calls_app.
Qed.

Lemma adds_last_block b (m : Async unit) :
  adds (fun out added => block_shape b out (api_calls added)) m ->
  adds (fun out added => chain [b] out (api_calls added)) m.
Proof.
  intros Hm tr. destruct (Hm tr) as (added & Htr & Hb). exists added.
  split; [done |]. simpl. destruct (failure (m tr).1) as [e |] eqn:Hout.
  - left. by exists e.
  - right. exists (api_calls added), []. by rewrite app_nil_r.
Qed.

Section Deploy.

Variable gzipSync : Buffer -> Buffer.
Variable base64 : Buffer -> string.
Variable sha256_hex : Buffer -> string.
Variable cluster : list (ApiCall * option error) -> ApiCall -> option error.

(** Running a block against every answer of the cluster. *)
Ltac run_block :=
  intros tr; unfold async_try, async_bind, Log, Webhook.await; simpl;
  repeat match goal with
         | |- context [cluster ?h ?c] => destruct (cluster h c); simpl
         end;
  rewrite <- ?app_assoc; simpl;
  (eexists; split; [reflexivity |]); simpl; unfold replace_attempt; eauto 10.

Lemma read_or_create_adds checking creating read create :
  adds (fun out added => block_shape (ReadOrCreate read create) out (api_calls added))
    (async_try
       (Log LInfo checking ;;; Webhook.await cluster read)
       (fun e => Log LDebug e ;;; Log LInfo creating ;;;
                 Webhook.await cluster create))%deploy.
Proof. run_block. Qed.

Lemma create_or_replace_adds creating recreating create delete :
  adds (fun out added => block_shape (CreateOrReplace create delete) out (api_calls added))
    (async_try
       (Log LInfo creating ;;; Webhook.await cluster create)
       (fun e => Log LDebug e ;;; Log LInfo recreating ;;;
                 Webhook.await cluster delete ;;;
                 Webhook.await cluster create))%deploy.
Proof. run_block. Qed.

Lemma try_replace_adds creating recreating create delete :
  adds (fun out added => block_shape (TryReplace create delete) out (api_calls added))
    (async_try
       (Log LInfo creating ;;; Webhook.await cluster create)
       (fun e => Log LDebug e ;;; Log LInfo recreating ;;;
                 async_try
                   (Webhook.await cluster delete ;;;
                    Webhook.await cluster create)
                   (fun e => Log LDebug e)))%deploy.
Proof. run_block. Qed.

(** The calls of a run of [deploy] are those of its blocks, one block after
    the other up to the first that fails. *)
Lemma deploy_chain w code wh :
  Webhook.mutatingWebhook w = inr wh ->
  adds (fun out added =>
          chain (deploy_blocks gzipSync base64 sha256_hex w wh code) out (api_calls added))
       (Webhook.deploy gzipSync base64 sha256_hex cluster w code).
Proof.
  intros Hwh. unfold Webhook.deploy, deploy_blocks. cbv zeta. rewrite Hwh.
  apply adds_after_log.
  apply adds_block_then; [apply read_or_create_adds |].
  apply adds_block_then; [apply create_or_replace_adds |].
  destruct (Webhook.host_given w).
  { apply adds_resolve. by simpl. }
  apply adds_block_then; [apply read_or_create_adds |].
  apply adds_block_then; [apply create_or_replace_adds |].
  apply adds_block_then; [apply try_replace_adds |].
  apply adds_block_then; [apply create_or_replace_adds |].
  apply adds_block_then; [apply create_or_replace_adds |].
  apply adds_block_then; [apply create_or_replace_adds |].
  apply adds_block_then; [apply create_or_replace_adds |].
  apply adds_last_block. apply create_or_replace_adds.
Qed.

End Deploy.

(** *** Chains of blocks *)

Lemma chain_closed (P : option error -> list (ApiCall * option error) -> Prop)
    blocks out cs :
  P None [] ->
  (forall out a b, P None a -> P out b -> P out (a ++ b)) ->
  Forall (fun b => forall out cs, block_shape b out cs -> P out cs) blocks ->
  chain blocks out cs -> P out cs.
Proof.
  intros Hnil Happ Hblocks. revert cs.
  induction Hblocks as [| b blocks Hb _ IH]; intros cs; simpl.
  - by intros [-> ->].
  - intros [(e & -> & Hshape) | (cs1 & cs2 & -> & Hshape & Hrest)].
    + by apply Hb.
    + apply Happ; [by apply Hb | by apply IH].
Qed.

(** Every block of a chain that resolved has resolved, and its calls are
    among those of the chain. *)
Lemma chain_resolved blocks cs b :
  chain blocks None cs -> b ∈ blocks ->
  exists cs1, block_shape b None cs1 /\ forall x, x ∈ cs1 -> x ∈ cs.
Proof.
  revert cs. induction blocks as [| b' blocks IH]; intros cs; simpl.
  - intros _ Hb. by apply elem_of_nil in Hb.
  - intros [(e & He & _) | (cs1 & cs2 & -> & Hshape & Hrest)] Hb; [done |].
    apply elem_of_cons in Hb as [-> | Hb].
    + exists cs1. split; [done |]. intros x Hx. apply elem_of_app. by left.
    + destruct (IH cs2 Hrest Hb) as (cs' & Hshape' & Hsub).
      exists cs'. split; [done |]. intros x Hx. apply elem_of_app. right. by apply Hsub.
Qed.

Lemma block_shape_calls b out cs x :
  block_shape b out cs -> x ∈ cs -> x.1 ∈ block_calls b.
Proof.
  destruct b as [r c | c d | c d]; simpl; unfold replace_attempt.
  - intros [[_ ->] | (e & ->)] Hx;
      repeat (apply elem_of_cons in Hx as [-> | Hx]); simpl;
      try (by apply elem_of_nil in Hx);
      try (apply elem_of_cons; by left); apply elem_of_cons; right;
      apply elem_of_cons; by left.
  - intros [[_ ->] | [(e & e' & _ & ->) | (e & ->)]] Hx;
      repeat (apply elem_of_cons in Hx as [-> | Hx]); simpl;
      try (by apply elem_of_nil in Hx);
      try (apply elem_of_cons; by left); apply elem_of_cons; right;
      apply elem_of_cons; by left.
  - intros [_ (out' & [[_ ->] | [(e & e' & _ & ->) | (e & ->)]])] Hx;
      repeat (apply elem_of_cons in Hx as [-> | Hx]); simpl;
      try (by apply elem_of_nil in Hx);
      try (apply elem_of_cons; by left); apply elem_of_cons; right;
      apply elem_of_cons; by left.
Qed.

Lemma chain_calls blocks out cs x :
  chain blocks out cs -> x ∈ cs -> x.1 ∈ flat_map block_calls blocks.
Proof.
  revert cs. induction blocks as [| b blocks IH]; intros cs; simpl.
  - intros [_ ->] Hx. by apply elem_of_nil in Hx.
  - intros [(e & _ & Hshape) | (cs1 & cs2 & -> & Hshape & Hrest)] Hx;
      apply elem_of_app.
    + left. by eapply block_shape_calls.
    + apply elem_of_app in Hx as [Hx | Hx].
      * left. by eapply block_shape_calls.
      * right. by eapply IH.
Qed.

Lemma replace_attempt_resolved create delete cs :
  replace_attempt create delete None cs -> (create, None) ∈ cs.
Proof.
  intros [[_ ->] | [(e & e' & ? & _) | (e & ->)]]; [| done |].
  - apply elem_of_cons. by left.
  - do 2 (apply elem_of_cons; right). apply elem_of_cons. by left.
Qed.

Lemma read_or_create_resolved read create cs :
  block_shape (ReadOrCreate read create) None cs ->
  (read, None) ∈ cs \/ (create, None) ∈ cs.
Proof.
  intros [[_ ->] | (e & ->)].
  - left. apply elem_of_cons. by left.
  - right. apply elem_of_cons. right. apply elem_of_cons. by left.
Qed.

(** *** Deletes *)

Lemma deletes_follow_failed_creates_app cs1 cs2 :
  deletes_follow_failed_creates cs1 -> deletes_follow_failed_creates cs2 ->
  deletes_follow_failed_creates (cs1 ++ cs2).
Proof.
  intros H1 H2 before d out after Heq Hd.
  apply app_eq_app in Heq as (l & [[-> Heq] | [-> ->]]).
  - destruct l as [| x l]; simpl in Heq.
    + destruct (H2 [] d out after (eq_sym Heq) Hd) as (before' & c & e & Hnil & _).
      by destruct before'.
    + injection Heq as <- ->. by apply (H1 before d out l).
  - destruct (H2 l d out after eq_refl Hd) as (before' & c & e & -> & Hc).
    exists (cs1 ++ before'), c, e. by rewrite app_assoc.
Qed.

Ltac split_short_list H :=
  repeat match type of H with
         | _ = ?before ++ _ :: _ =>
             is_var before; destruct before; simpl in H
         | _ :: _ = _ :: _ => injection H as ? H; subst
         | [] = _ :: _ => discriminate H
         | [] = _ ++ _ :: _ => by apply app_cons_not_nil in H
         end.

Lemma block_deletes_follow_failed_creates b out cs :
  replaces b -> block_shape b out cs -> deletes_follow_failed_creates cs.
Proof.
  destruct b as [r c | c d | c d]; simpl; unfold replace_attempt.
  - intros [Hr Hc] [[_ ->] | (e & ->)] before d' out' after Heq Hd;
      split_short_list Heq; congruence.
  - intros [Hc Hcd] [[_ ->] | [(e & e' & _ & ->) | (e & ->)]] before d' out' after Heq Hd;
      split_short_list Heq; try congruence;
      by exists [], c, e.
  - intros [Hc Hcd] [_ (o & [[_ ->] | [(e & e' & _ & ->) | (e & ->)]])]
      before d' out' after Heq Hd;
      split_short_list Heq; try congruence;
      by exists [], c, e.
Qed.

(** *** Rejections *)

Lemma rejects_with_last_call_app out cs1 cs2 :
  rejects_with_last_call None cs1 -> rejects_with_last_call out cs2 ->
  rejects_with_last_call out (cs1 ++ cs2).
Proof.
  intros _ H2 e He. destruct (H2 e He) as (before & c & -> & Hc).
  exists (cs1 ++ before), c. by rewrite app_assoc.
Qed.

Lemma block_rejects_with_last_call b out cs :
  unhandled b -> block_shape b out cs -> rejects_with_last_call out cs.
Proof.
  destruct b as [r c | c d | c d]; simpl; unfold replace_attempt.
  - intros Hc [[-> ->] | (e & ->)] e' He'; [done |]. subst out.
    by exists [(r, Some e)], c.
  - intros [Hc Hd] [[-> ->] | [(e & e' & -> & ->) | (e & ->)]] e'' He''; [done | |].
    + injection He'' as <-. by exists [(c, Some e)], d.
    + subst out. by exists [(c, Some e); (d, None)], c.
  - by intros _ [-> _] e He.
Qed.

Section DeployProperties.

Variable gzipSync : Buffer -> Buffer.
Variable base64 : Buffer -> string.
Variable sha256_hex : Buffer -> string.
Variable cluster : list (ApiCall * option error) -> ApiCall -> option error.

(** The chain of a run. *)
Lemma deploy_run_chain w code wh :
  Webhook.mutatingWebhook w = inr wh ->
  chain (deploy_blocks gzipSync base64 sha256_hex w wh code)
    (failure (Webhook.deploy_run gzipSync base64 sha256_hex cluster w code).1)
    (api_calls (Webhook.deploy_run gzipSync base64 sha256_hex cluster w code).2).
Proof.
  intros Hwh.
  destruct (deploy_chain gzipSync base64 sha256_hex cluster w code wh Hwh [])
    as (added & Htr & Hchain).
  unfold Webhook.deploy_run. by rewrite Htr.
Qed.

(** Without a webhook configuration, [deploy] stops after the namespace. *)
Lemma deploy_run_unconfigured w code e0 :
  Webhook.mutatingWebhook w = inl e0 ->
  exists out,
    block_shape (ReadOrCreate (readNamespace "pepr-system")
                              (createNamespace (Webhook.namespace w)))
      out (api_calls (Webhook.deploy_run gzipSync base64 sha256_hex cluster w code).2) /\
    (Webhook.deploy_run gzipSync base64 sha256_hex cluster w code).1 =
      inl (default e0 out).
Proof.
  intros Hwh. unfold Webhook.deploy_run, Webhook.deploy. cbv zeta. rewrite Hwh.
  unfold async_try, async_bind, Log, Webhook.await, reject. simpl.
  repeat match goal with
         | |- context [cluster ?h ?c] => destruct (cluster h c); simpl
         end; eauto 10.
Qed.

Lemma deploy_blocks_replace w wh code :
  Forall replaces (deploy_blocks gzipSync base64 sha256_hex w wh code).
Proof.
  unfold deploy_blocks. destruct (Webhook.host_given w); repeat constructor.
Qed.

Lemma deploy_blocks_unhandled w wh code :
  Forall unhandled (deploy_blocks gzipSync base64 sha256_hex w wh code).
Proof.
  unfold deploy_blocks. destruct (Webhook.host_given w); repeat constructor.
Qed.

(** [deploy] deletes a resource only right after it failed to create that
    very resource: in the calls of any run, whatever the cluster answers,
    every delete is preceded immediately by a create that was answered with
    an error and that names the same resource (and namespace).  In
    particular [deploy] never deletes the namespace or the network policy. *)
Theorem deploy_deletes_only_what_it_failed_to_create w code :
  deletes_follow_failed_creates
    (api_calls (Webhook.deploy_run gzipSync base64 sha256_hex cluster w code).2).
Proof.
  destruct (Webhook.mutatingWebhook w) as [e0 | wh] eqn:Hwh.
  - destruct (deploy_run_unconfigured w code e0 Hwh) as (out & Hshape & _).
    eapply block_deletes_follow_failed_creates; [| exact Hshape]. by split.
  - pose proof (deploy_run_chain w code wh Hwh) as Hchain. revert Hchain.
    apply (chain_closed (fun _ cs => deletes_follow_failed_creates cs)).
    + intros before d out after Heq. by destruct before.
    + intros _ a b. apply deletes_follow_failed_creates_app.
    + eapply Forall_impl; [apply deploy_blocks_replace |].
      intros b Hb out cs. by apply block_deletes_follow_failed_creates.
Qed.

(** When [deploy] rejects, either building the webhook configuration threw
    (and the error is that one), or the error is the answer to the last call
    made, and that call is neither a read nor a call about the cluster role:
    a failed read is answered by a create, and what happens to the cluster
    role on the second attempt is dropped. *)
Theorem deploy_rejects_with_the_error_of_its_last_call w code e :
  (Webhook.deploy_run gzipSync base64 sha256_hex cluster w code).1 = inl e ->
  Webhook.mutatingWebhook w = inl e \/
  exists before c,
    api_calls (Webhook.deploy_run gzipSync base64 sha256_hex cluster w code).2 =
      before ++ [(c, Some e)] /\
    handled c = false.
Proof.
  intros He. destruct (Webhook.mutatingWebhook w) as [e0 | wh] eqn:Hwh.
  - destruct (deploy_run_unconfigured w code e0 Hwh) as (out & Hshape & Hout).
    rewrite He in Hout. injection Hout as ->. destruct out as [e' |]; [| by left].
    right. eapply block_rejects_with_last_call; [| exact Hshape | done]. done.
  - right.
    assert (Hlast : rejects_with_last_call
              (failure (Webhook.deploy_run gzipSync base64 sha256_hex cluster w code).1)
              (api_calls (Webhook.deploy_run gzipSync base64 sha256_hex cluster w code).2)).
    { pose proof (deploy_run_chain w code wh Hwh) as Hchain. revert Hchain.
      apply (chain_closed rejects_with_last_call).
      - by intros e'.
      - intros out a b. apply rejects_with_last_call_app.
      - eapply Forall_impl; [apply deploy_blocks_unhandled |].
        intros b Hb out cs. by apply block_rejects_with_last_call. }
    apply Hlast. by rewrite He.
Qed.

(** When [deploy] resolves for a webhook without a host, every manifest was
    applied: the namespace and the network policy were read or else created,
    and the webhook configuration, the cluster role binding, the service
    account, the module secret, the service, the TLS secret and the
    deployment were each created, the call answered without an error.  The
    cluster role is the one resource this does not hold for. *)
Theorem resolved_deploy_applied_the_manifests w code :
  (Webhook.deploy_run gzipSync base64 sha256_hex cluster w code).1 = inr tt ->
  Webhook.host_given w = false ->
  let tr := (Webhook.deploy_run gzipSync base64 sha256_hex cluster w code).2 in
  let hash := sha256_hex code in
  exists wh,
    Webhook.mutatingWebhook w = inr wh /\
    (Called (readNamespace "pepr-system") None ∈ tr \/
     Called (createNamespace (Webhook.namespace w)) None ∈ tr) /\
    Called (createMutatingWebhookConfiguration wh) None ∈ tr /\
    (Called (readNamespacedNetworkPolicy (metadata_name (Webhook.networkPolicy w))
               "pepr-system") None ∈ tr \/
     Called (createNamespacedNetworkPolicy "pepr-system" (Webhook.networkPolicy w))
       None ∈ tr) /\
    Called (createClusterRoleBinding (Webhook.clusterRoleBinding w)) None ∈ tr /\
    Called (createNamespacedServiceAccount "pepr-system" (Webhook.serviceAccount w))
      None ∈ tr /\
    Called (createNamespacedSecret "pepr-system"
              (Webhook.moduleSecret gzipSync base64 w code hash)) None ∈ tr /\
    Called (createNamespacedService "pepr-system" (Webhook.service w)) None ∈ tr /\
    Called (createNamespacedSecret "pepr-system" (Webhook.tlsSecret w)) None ∈ tr /\
    Called (createNamespacedDeployment "pepr-system" (Webhook.deployment w hash))
      None ∈ tr.
Proof.
  intros Hout Hhost tr hash. subst tr hash.
  destruct (Webhook.mutatingWebhook w) as [e0 | wh] eqn:Hwh.
  { destruct (deploy_run_unconfigured w code e0 Hwh) as (out & _ & Hout').
    congruence. }
  exists wh. split; [done |].
  pose proof (deploy_run_chain w code wh Hwh) as Hchain.
  rewrite Hout in Hchain. change (failure (inr ())) with (@None error) in Hchain.
  unfold deploy_blocks in Hchain. rewrite Hhost in Hchain.
  assert (Hblock : forall i b,
            ([ReadOrCreate (readNamespace "pepr-system")
                (createNamespace (Webhook.namespace w));
              CreateOrReplace (createMutatingWebhookConfiguration wh)
                (deleteMutatingWebhookConfiguration (metadata_name wh))] ++
             [ReadOrCreate
                (readNamespacedNetworkPolicy (metadata_name (Webhook.networkPolicy w))
                   "pepr-system")
                (createNamespacedNetworkPolicy "pepr-system" (Webhook.networkPolicy w));
              CreateOrReplace (createClusterRoleBinding (Webhook.clusterRoleBinding w))
                (deleteClusterRoleBinding (metadata_name (Webhook.clusterRoleBinding w)));
              TryReplace (createClusterRole (Webhook.clusterRole w))
                (deleteClusterRole (metadata_name (Webhook.clusterRole w)));
              CreateOrReplace
                (createNamespacedServiceAccount "pepr-system" (Webhook.serviceAccount w))
                (deleteNamespacedServiceAccount
                   (metadata_name (Webhook.serviceAccount w)) "pepr-system");
              CreateOrReplace
                (createNamespacedSecret "pepr-system"
                   (Webhook.moduleSecret gzipSync base64 w code (sha256_hex code)))
                (deleteNamespacedSecret
                   (metadata_name
                      (Webhook.moduleSecret gzipSync base64 w code (sha256_hex code)))
                   "pepr-system");
              CreateOrReplace
                (createNamespacedService "pepr-system" (Webhook.service w))
                (deleteNamespacedService (metadata_name (Webhook.service w))
                   "pepr-system");
              CreateOrReplace
                (createNamespacedSecret "pepr-system" (Webhook.tlsSecret w))
                (deleteNamespacedSecret (metadata_name (Webhook.tlsSecret w))
                   "pepr-system");
              CreateOrReplace
                (createNamespacedDeployment "pepr-system"
                   (Webhook.deployment w (sha256_hex code)))
                (deleteNamespacedDeployment
                   (metadata_name (Webhook.deployment w (sha256_hex code)))
                   "pepr-system")]) !! i = Some b ->
            exists cs1, block_shape b None cs1 /\
              forall call, (call, None) ∈ cs1 ->
                Called call None ∈
                  (Webhook.deploy_run gzipSync base64 sha256_hex cluster w code).2).
  { intros i b Hi. apply list_elem_of_lookup_2 in Hi.
    destruct (chain_resolved _ _ b Hchain Hi) as (cs1 & Hshape & Hsub).
    exists cs1. split; [done |]. intros call Hcall.
    by apply elem_of_api_calls, Hsub. }
  split_and!.
  - destruct (Hblock 0 _ eq_refl) as (cs1 & Hshape & Hsub).
    destruct (read_or_create_resolved _ _ _ Hshape); [left | right]; by apply Hsub.
  - destruct (Hblock 1 _ eq_refl) as (cs1 & Hshape & Hsub).
    by apply Hsub, replace_attempt_resolved with (delete := deleteMutatingWebhookConfiguration (metadata_name wh)).
  - destruct (Hblock 2 _ eq_refl) as (cs1 & Hshape & Hsub).
    destruct (read_or_create_resolved _ _ _ Hshape); [left | right]; by apply Hsub.
  - destruct (Hblock 3 _ eq_refl) as (cs1 & Hshape & Hsub).
    apply Hsub. eapply replace_attempt_resolved. exact Hshape.
  - destruct (Hblock 5 _ eq_refl) as (cs1 & Hshape & Hsub).
    apply Hsub. eapply replace_attempt_resolved. exact Hshape.
  - destruct (Hblock 6 _ eq_refl) as (cs1 & Hshape & Hsub).
    apply Hsub. eapply replace_attempt_resolved. exact Hshape.
  - destruct (Hblock 7 _ eq_refl) as (cs1 & Hshape & Hsub).
    apply Hsub. eapply replace_attempt_resolved. exact Hshape.
  - destruct (Hblock 8 _ eq_refl) as (cs1 & Hshape & Hsub).
    apply Hsub. eapply replace_attempt_resolved. exact Hshape.
  - destruct (Hblock 9 _ eq_refl) as (cs1 & Hshape & Hsub).
    apply Hsub. eapply replace_attempt_resolved. exact Hshape.
Qed.

End DeployProperties.

(** Every call of a chain belongs to one of its blocks, and the blocks
    before that one have resolved, with all their calls made earlier. *)
Lemma chain_before blocks out cs before x after :
  chain blocks out cs -> cs = before ++ x :: after ->
  exists i b cs1,
    blocks !! i = Some b /\ x.1 ∈ block_calls b /\
    chain (take i blocks) None cs1 /\ forall y, y ∈ cs1 -> y ∈ before.
Proof.
  revert cs before. induction blocks as [| b blocks IH]; intros cs before; simpl.
  - intros [_ ->] Heq. by destruct before.
  - assert (Hhere : forall cs1, block_shape b out cs1 \/ block_shape b None cs1 ->
              x ∈ cs1 ->
              exists i b' cs1',
                (b :: blocks) !! i = Some b' /\ x.1 ∈ block_calls b' /\
                chain (take i (b :: blocks)) None cs1' /\
                forall y, y ∈ cs1' -> y ∈ before).
    { intros cs1 Hshape Hx. exists 0, b, []. split; [done |]. split.
      - destruct Hshape; by eapply block_shape_calls.
      - split; [done |]. intros y Hy. by apply elem_of_nil in Hy. }
    intros [(e & -> & Hshape) | (cs1 & cs2 & -> & Hshape & Hrest)] Heq.
    + apply (Hhere cs); [by left |]. rewrite Heq. apply elem_of_app. right.
      apply elem_of_cons. by left.
    + apply app_eq_app in Heq as (l & [[-> Heq] | [-> ->]]).
      * destruct l as [| x' l]; simpl in Heq.
        -- destruct (IH cs2 [] Hrest (eq_sym Heq)) as (i & b' & cs1' & Hi & Hx & Hc & Hsub).
           exists (S i), b', ((before ++ []) ++ cs1'). split; [done |]. split; [done |].
           split.
           ++ simpl. right. by exists (before ++ []), cs1'.
           ++ intros y Hy. rewrite app_nil_r in Hy. apply elem_of_app in Hy as [Hy | Hy]; [done |].
              apply Hsub in Hy. by apply elem_of_nil in Hy.
        -- injection Heq as <- ->. apply (Hhere (before ++ x :: l)); [by right |].
           apply elem_of_app. right. apply elem_of_cons. by left.
      * destruct (IH (l ++ x :: after) l Hrest eq_refl)
          as (i & b' & cs1' & Hi & Hx & Hc & Hsub).
        exists (S i), b', (cs1 ++ cs1'). split; [done |]. split; [done |]. split.
        -- simpl. right. by exists cs1, cs1'.
        -- intros y Hy. apply elem_of_app. apply elem_of_app in Hy as [Hy | Hy]; [by left |].
           right. by apply Hsub.
Qed.

Section DeployOrder.

Variable gzipSync : Buffer -> Buffer.
Variable base64 : Buffer -> string.
Variable sha256_hex : Buffer -> string.
Variable dumpYaml : Json -> string.
Variable cluster : list (ApiCall * option error) -> ApiCall -> option error.

(** For a webhook at a host, [deploy] registers the webhook and stops: every
    call it makes is about the namespace or the webhook configuration, so
    nothing of the controller is applied; and when it resolves, the webhook
    configuration was created. *)
Theorem deploy_at_a_host_only_registers_the_webhook w code :
  Webhook.host_given w = true ->
  (forall call outcome,
     Called call outcome ∈ (Webhook.deploy_run gzipSync base64 sha256_hex cluster w code).2 ->
     registers call = true) /\
  ((Webhook.deploy_run gzipSync base64 sha256_hex cluster w code).1 = inr tt ->
   exists wh,
     Webhook.mutatingWebhook w = inr wh /\
     Called (createMutatingWebhookConfiguration wh) None ∈
       (Webhook.deploy_run gzipSync base64 sha256_hex cluster w code).2).
Proof.
  intros Hhost. destruct (Webhook.mutatingWebhook w) as [e0 | wh] eqn:Hwh.
  - destruct (deploy_run_unconfigured gzipSync base64 sha256_hex cluster w code e0 Hwh)
      as (out & Hshape & Hout).
    split; [| congruence]. intros call outcome Hcall.
    apply elem_of_api_calls in Hcall.
    pose proof (block_shape_calls _ _ _ _ Hshape Hcall) as Hin. simpl in Hin.
    repeat (apply elem_of_cons in Hin as [-> | Hin]); try done.
    by apply elem_of_nil in Hin.
  - pose proof (deploy_run_chain gzipSync base64 sha256_hex cluster w code wh Hwh)
      as Hchain.
    unfold deploy_blocks in Hchain. rewrite Hhost in Hchain. split.
    + intros call outcome Hcall. apply elem_of_api_calls in Hcall.
      pose proof (chain_calls _ _ _ _ Hchain Hcall) as Hin. simpl in Hin.
      repeat (apply elem_of_cons in Hin as [-> | Hin]); try done.
      by apply elem_of_nil in Hin.
    + intros Hout. exists wh. split; [done |].
      rewrite Hout in Hchain. change (failure (inr ())) with (@None error) in Hchain.
      destruct (chain_resolved _ _
                  (CreateOrReplace (createMutatingWebhookConfiguration wh)
                     (deleteMutatingWebhookConfiguration (metadata_name wh)))
                  Hchain) as (cs1 & Hshape & Hsub).
      { apply (list_elem_of_lookup_2 _ 1). reflexivity. }
      apply elem_of_api_calls, Hsub. eapply replace_attempt_resolved. exact Hshape.
Qed.

(** A configuration without the list of namespaces to ignore: building the
    webhook configuration throws, so [allYaml] throws, and [deploy] rejects
    having called the cluster about the namespace only; the error is the
    TypeError of the missing list unless the namespace could not be created. *)
Theorem missing_ignore_list_stops_deploy_after_the_namespace w code :
  Webhook.alwaysIgnore_namespaces (Webhook.config w) = None ->
  let missing := TypeError "Cannot read properties of undefined (reading 'length')" in
  Webhook.allYaml gzipSync base64 sha256_hex dumpYaml w code = inl missing /\
  (exists e,
     (Webhook.deploy_run gzipSync base64 sha256_hex cluster w code).1 = inl e /\
     (e = missing \/
      Called (createNamespace (Webhook.namespace w)) (Some e) ∈
        (Webhook.deploy_run gzipSync base64 sha256_hex cluster w code).2)) /\
  forall call outcome,
    Called call outcome ∈ (Webhook.deploy_run gzipSync base64 sha256_hex cluster w code).2 ->
    call = readNamespace "pepr-system" \/ call = createNamespace (Webhook.namespace w).
Proof.
  intros Hns missing.
  assert (Hwh : Webhook.mutatingWebhook w = inl missing).
  { unfold Webhook.mutatingWebhook. by rewrite Hns. }
  destruct (deploy_run_unconfigured gzipSync base64 sha256_hex cluster w code _ Hwh)
    as (out & Hshape & Hout).
  split_and!.
  - unfold Webhook.allYaml, Webhook.resources. by rewrite Hwh.
  - exists (default missing out). split; [done |].
    destruct out as [e |]; [right | by left]. simpl.
    apply elem_of_api_calls. destruct Hshape as [[? _] | (e' & ->)]; [done |].
    apply elem_of_cons. right. apply elem_of_cons. by left.
  - intros call outcome Hcall. apply elem_of_api_calls in Hcall.
    pose proof (block_shape_calls _ _ _ _ Hshape Hcall) as Hin. simpl in Hin.
    repeat (apply elem_of_cons in Hin as [-> | Hin]); auto.
    by apply elem_of_nil in Hin.
Qed.

(** [deploy] asks for the deployment only once what the deployment refers
    to is in place: before any call that creates a deployment, the namespace
    was read or created, and the service account, the module secret and the
    TLS secret were each created, the call answered without an error. *)
Theorem deployment_is_created_after_what_it_refers_to w code before ns body outcome after :
  api_calls (Webhook.deploy_run gzipSync base64 sha256_hex cluster w code).2 =
    before ++ (createNamespacedDeployment ns body, outcome) :: after ->
  ((readNamespace "pepr-system", None) ∈ before \/
   (createNamespace (Webhook.namespace w), None) ∈ before) /\
  (createNamespacedServiceAccount "pepr-system" (Webhook.serviceAccount w), None) ∈ before /\
  (createNamespacedSecret "pepr-system"
     (Webhook.moduleSecret gzipSync base64 w code (sha256_hex code)), None) ∈ before /\
  (createNamespacedSecret "pepr-system" (Webhook.tlsSecret w), None) ∈ before.
Proof.
  intros Heq. destruct (Webhook.mutatingWebhook w) as [e0 | wh] eqn:Hwh.
  { destruct (deploy_run_unconfigured gzipSync base64 sha256_hex cluster w code e0 Hwh)
      as (out & Hshape & _).
    assert (Hcall : (createNamespacedDeployment ns body, outcome) ∈
              api_calls (Webhook.deploy_run gzipSync base64 sha256_hex cluster w code).2).
    { rewrite Heq. apply elem_of_app. right. apply elem_of_cons. by left. }
    pose proof (block_shape_calls _ _ _ _ Hshape Hcall) as Hin. simpl in Hin.
    repeat (apply elem_of_cons in Hin as [? | Hin]); try done.
    by apply elem_of_nil in Hin. }
  pose proof (deploy_run_chain gzipSync base64 sha256_hex cluster w code wh Hwh) as Hchain.
  destruct (chain_before _ _ _ _ _ _ Hchain Heq) as (i & b & cs1 & Hi & Hin & Hpre & Hsub).
  unfold deploy_blocks in Hi, Hpre. simpl in Hin.
  destruct (Webhook.host_given w).
  - do 2 (destruct i as [| i]; [simpl in Hi; injection Hi as <-; simpl in Hin;
        repeat (apply elem_of_cons in Hin as [? | Hin]); try done;
        by apply elem_of_nil in Hin |]). done.
  - do 9 (destruct i as [| i]; [simpl in Hi; injection Hi as <-; simpl in Hin;
        repeat (apply elem_of_cons in Hin as [? | Hin]); try done;
        by apply elem_of_nil in Hin |]).
    destruct i as [| i]; [| done]. clear Hi Hin.
    assert (Hblock : forall b', b' ∈ take 9
              ([ReadOrCreate (readNamespace "pepr-system")
                  (createNamespace (Webhook.namespace w));
                CreateOrReplace (createMutatingWebhookConfiguration wh)
                  (deleteMutatingWebhookConfiguration (metadata_name wh))] ++
               [ReadOrCreate
                  (readNamespacedNetworkPolicy (metadata_name (Webhook.networkPolicy w))
                     "pepr-system")
                  (createNamespacedNetworkPolicy "pepr-system" (Webhook.networkPolicy w));
                CreateOrReplace (createClusterRoleBinding (Webhook.clusterRoleBinding w))
                  (deleteClusterRoleBinding
                     (metadata_name (Webhook.clusterRoleBinding w)));
                TryReplace (createClusterRole (Webhook.clusterRole w))
                  (deleteClusterRole (metadata_name (Webhook.clusterRole w)));
                CreateOrReplace
                  (createNamespacedServiceAccount "pepr-system" (Webhook.serviceAccount w))
                  (deleteNamespacedServiceAccount
                     (metadata_name (Webhook.serviceAccount w)) "pepr-system");
                CreateOrReplace
                  (createNamespacedSecret "pepr-system"
                     (Webhook.moduleSecret gzipSync base64 w code (sha256_hex code)))
                  (deleteNamespacedSecret
                     (metadata_name
                        (Webhook.moduleSecret gzipSync base64 w code (sha256_hex code)))
                     "pepr-system");
                CreateOrReplace
                  (createNamespacedService "pepr-system" (Webhook.service w))
                  (deleteNamespacedService (metadata_name (Webhook.service w))
                     "pepr-system");
                CreateOrReplace
                  (createNamespacedSecret "pepr-system" (Webhook.tlsSecret w))
                  (deleteNamespacedSecret (metadata_name (Webhook.tlsSecret w))
                     "pepr-system");
                CreateOrReplace
                  (createNamespacedDeployment "pepr-system"
                     (Webhook.deployment w (sha256_hex code)))
                  (deleteNamespacedDeployment
                     (metadata_name (Webhook.deployment w (sha256_hex code)))
                     "pepr-system")]) ->
              exists cs', block_shape b' None cs' /\
                          forall call, (call, None) ∈ cs' -> (call, None) ∈ before).
    { intros b' Hb'. destruct (chain_resolved _ _ b' Hpre Hb') as (cs' & Hshape & Hsub').
      exists cs'. split; [done |]. intros call Hcall. by apply Hsub, Hsub'. }
    split_and!.
    + destruct (Hblock (ReadOrCreate (readNamespace "pepr-system")
                          (createNamespace (Webhook.namespace w))))
        as (cs' & Hshape & Hsub').
      { apply (list_elem_of_lookup_2 _ 0). reflexivity. }
      destruct (read_or_create_resolved _ _ _ Hshape); [left | right]; by apply Hsub'.
    + destruct (Hblock (CreateOrReplace
                          (createNamespacedServiceAccount "pepr-system"
                             (Webhook.serviceAccount w))
                          (deleteNamespacedServiceAccount
                             (metadata_name (Webhook.serviceAccount w)) "pepr-system")))
        as (cs' & Hshape & Hsub').
      { apply (list_elem_of_lookup_2 _ 5). reflexivity. }
      apply Hsub'. eapply replace_attempt_resolved. exact Hshape.
    + destruct (Hblock (CreateOrReplace
                          (createNamespacedSecret "pepr-system"
                             (Webhook.moduleSecret gzipSync base64 w code (sha256_hex code)))
                          (deleteNamespacedSecret
                             (metadata_name
                                (Webhook.moduleSecret gzipSync base64 w code
                                   (sha256_hex code)))
                             "pepr-system")))
        as (cs' & Hshape & Hsub').
      { apply (list_elem_of_lookup_2 _ 6). reflexivity. }
      apply Hsub'. eapply replace_attempt_resolved. exact Hshape.
    + destruct (Hblock (CreateOrReplace
                          (createNamespacedSecret "pepr-system" (Webhook.tlsSecret w))
                          (deleteNamespacedSecret (metadata_name (Webhook.tlsSecret w))
                             "pepr-system")))
        as (cs' & Hshape & Hsub').
      { apply (list_elem_of_lookup_2 _ 8). reflexivity. }
      apply Hsub'. eapply replace_attempt_resolved. exact Hshape.
Qed.

End DeployOrder.



Section DeployUntroubled.

Variable gzipSync : Buffer -> Buffer.
Variable base64 : Buffer -> string.
Variable sha256_hex : Buffer -> string.
Variable cluster : list (ApiCall * option error) -> ApiCall -> option error.


End DeployUntroubled.

(** ** The added properties at worked inputs *)

(** Two capabilities, three bindings let through, one of which throws. *)
Lemma allowed_response_ran_every_binding_let_through_witness :
  exists r,
    process_example false two_capabilities = inr r /\
    Response.allowed r = true /\
    calls (trace (run_example false two_capabilities).2) =
      let_through (shouldSkip no_ignore) create_pod1 two_capabilities.
Proof.
  eexists. split; [vm_compute; reflexivity |]. split; [reflexivity |].
  eapply (allowed_response_ran_every_binding_let_through (shouldSkip no_ignore)
            reference_compare (module_config false) two_capabilities create_pod1).
  - vm_compute. reflexivity.
  - reflexivity.
Defined.

Lemma warnings_are_the_failures_in_order_witness :
  exists r,
    ModuleConfig.rejectOnError (module_config false) = false /\
    process_example false two_capabilities = inr r /\
    Response.warnings r =
      (fun e => "Action failed: " +:+ e) <$>
        failures (trace (run_example false two_capabilities).2).
Proof.
  eexists. split; [reflexivity |]. split; [vm_compute; reflexivity |].
  apply (warnings_are_the_failures_in_order (shouldSkip no_ignore)
           reference_compare (module_config false) two_capabilities create_pod1).
  - reflexivity.
  - vm_compute. reflexivity.
Defined.

Lemma reject_policy_warnings_witness :
  exists r,
    ModuleConfig.rejectOnError (module_config true) = true /\
    process_example true two_capabilities = inr r /\
    ((Response.allowed r = true /\ Response.warnings r = []) \/
     (Response.allowed r = false /\ length (Response.warnings r) = 1)).
Proof.
  eexists. split; [reflexivity |]. split; [vm_compute; reflexivity |].
  apply (reject_policy_warnings (shouldSkip no_ignore)
           reference_compare (module_config true) two_capabilities create_pod1).
  - reflexivity.
  - vm_compute. reflexivity.
Defined.

(** The review of a DELETE carries no object. *)
Lemma object_without_metadata_escapes_witness :
  lacks_metadata (Request.object delete_pod1) /\
  let_through (shouldSkip no_ignore) delete_pod1 [on_delete] <> [] /\
  (exists message,
     processor (shouldSkip no_ignore) reference_compare (module_config false)
       [on_delete] delete_pod1 = inl (TypeError message)) /\
  calls (trace (processor_run (shouldSkip no_ignore) reference_compare
                  (module_config false) [on_delete] delete_pod1).2) = [].
Proof.
  assert (Hlacks : lacks_metadata (Request.object delete_pod1)) by (by left).
  assert (Hsome : let_through (shouldSkip no_ignore) delete_pod1 [on_delete] <> [])
    by (vm_compute; discriminate).
  split; [exact Hlacks |]. split; [exact Hsome |].
  exact (object_without_metadata_escapes (shouldSkip no_ignore) reference_compare
           (module_config false) delete_pod1 [on_delete] Hlacks Hsome).
Defined.

Lemma completed_step_leaves_final_status_witness :
  shouldSkip no_ignore (when_pod_created (action_of (set_label "x" "y" ;;; boom)))
    create_pod1 = false /\
  (process_binding (shouldSkip no_ignore) (module_config false) create_pod1 "c" "p"
     (when_pod_created (action_of (set_label "x" "y" ;;; boom)))
     (initial_state create_pod1)).1 = Normal tt /\
  exists metadata a status,
    get_prop (store (wrapped (initial_state create_pod1)))
      (Raw (wrapped (initial_state create_pod1))) "metadata" = inr metadata /\
    get_prop
      (store (wrapped
         (process_binding (shouldSkip no_ignore) (module_config false) create_pod1
            "c" "p" (when_pod_created (action_of (set_label "x" "y" ;;; boom)))
            (initial_state create_pod1)).2)) metadata "annotations" = inr a /\
    get_prop
      (store (wrapped
         (process_binding (shouldSkip no_ignore) (module_config false) create_pod1
            "c" "p" (when_pod_created (action_of (set_label "x" "y" ;;; boom)))
            (initial_state create_pod1)).2)) a
      (identifier_of (module_config false) "c") = inr (VString status) /\
    final_status (module_config false) (initial_state create_pod1)
      (process_binding (shouldSkip no_ignore) (module_config false) create_pod1
         "c" "p" (when_pod_created (action_of (set_label "x" "y" ;;; boom)))
         (initial_state create_pod1)).2 status.
Proof.
  split; [reflexivity |]. split; [vm_compute; reflexivity |].
  apply (completed_step_leaves_final_status (shouldSkip no_ignore)
           (module_config false) create_pod1 "c" "p"
           (when_pod_created (action_of (set_label "x" "y" ;;; boom)))
           (initial_state create_pod1)).
  - reflexivity.
  - vm_compute. reflexivity.
Defined.

(** ** The webhook at worked inputs *)

Lemma all_yaml_starts_the_controller_with_the_hash_of_the_secret_witness :
  exists rs,
    resources_example in_cluster = inr rs /\
    exists dep secret payload,
      rs !! 7 = Some dep /\ rs !! 9 = Some secret /\ length rs = 10 /\
      json_item 2 (json_at ["command"] (container_of dep)) = JString (no_hash []) /\
      json_at ["data"] secret =
        JObject [("module-" +:+ no_hash [] +:+ ".js.gz", JString payload)] /\
      same_string (json_at ["secret"; "secretName"] (volume_of 1 dep)) (metadata_name secret).
Proof.
  eexists. split; [vm_compute; reflexivity |].
  apply (all_yaml_starts_the_controller_with_the_hash_of_the_secret
           no_gzip as_text no_hash in_cluster []).
  vm_compute. reflexivity.
Defined.

Lemma webhook_selectors_exclude_the_ignored_namespaces_witness :
  exists wh,
    Webhook.mutatingWebhook in_cluster = inr wh /\
    Webhook.alwaysIgnore_namespaces (Webhook.config in_cluster) = Some ["kube-system"] /\
    json_at ["namespaceSelector"; "matchExpressions"] (webhook_of wh) =
      json_at ["objectSelector"; "matchExpressions"] (webhook_of wh) /\
    json_at ["namespaceSelector"; "matchExpressions"] (webhook_of wh) =
      JArray (peprIgnore ::
              match ["kube-system"] with
              | [] => []
              | _ :: _ =>
                  [JObject [("key", JString "kubernetes.io/metadata.name");
                            ("operator", JString "NotIn");
                            ("values", JArray (JString <$> ["kube-system"]))]]
              end).
Proof.
  eexists. split; [vm_compute; reflexivity |]. split; [reflexivity |].
  apply (webhook_selectors_exclude_the_ignored_namespaces in_cluster _ ["kube-system"]).
  - vm_compute. reflexivity.
  - reflexivity.
Defined.

Lemma manifests_lie_in_the_namespace_created_first_witness :
  exists rs,
    resources_example in_cluster = inr rs /\
    rs !! 0 = Some (Webhook.namespace in_cluster) /\
    json_at ["kind"] (Webhook.namespace in_cluster) = JString "Namespace" /\
    forall r, r ∈ rs ->
      (cluster_scoped r /\ metadata_namespace r = JUndefined) \/
      same_string (metadata_namespace r) (metadata_name (Webhook.namespace in_cluster)).
Proof.
  eexists. split; [vm_compute; reflexivity |].
  apply (manifests_lie_in_the_namespace_created_first
           no_gzip as_text no_hash in_cluster []).
  vm_compute. reflexivity.
Defined.

(** A webhook in the cluster: the service, and the certificate of its DNS
    name. *)
Lemma webhook_client_reaches_what_the_certificate_names_witness :
  exists wh,
    Webhook.mutatingWebhook in_cluster = inr wh /\
    json_at ["service"; "name"] (json_at ["clientConfig"] (webhook_of wh)) =
      JString "pepr-static-test" /\
    Webhook._tls in_cluster = fixed_tls "pepr-static-test.pepr-system.svc".
Proof.
  eexists. split; [vm_compute; reflexivity |].
  destruct (webhook_client_reaches_what_the_certificate_names
              fixed_tls (module_cfg (Some ["kube-system"])) None _ eq_refl)
    as (_ & _ & _ & [(h & Hh & _) | (n & ns & _ & Hn & Hns & Htls & _ & Hname & _)]).
  - discriminate Hh.
  - split; [reflexivity | reflexivity].
Defined.

(** A cluster that refuses everything: the namespace cannot be created. *)
Lemma deploy_rejects_with_the_error_of_its_last_call_witness :
  (deploy_example refusing in_cluster).1 = inl "500" /\
  (Webhook.mutatingWebhook in_cluster = inl "500" \/
   exists before c,
     api_calls (deploy_example refusing in_cluster).2 = before ++ [(c, Some "500")] /\
     handled c = false).
Proof.
  split; [vm_compute; reflexivity |].
  apply (deploy_rejects_with_the_error_of_its_last_call
           no_gzip as_text no_hash refusing in_cluster [] "500").
  vm_compute. reflexivity.
Defined.

(** A cluster where the cluster role can be neither created nor deleted and
    the service has to be replaced: the run resolves all the same. *)
Lemma resolved_deploy_applied_the_manifests_witness :
  (deploy_example stubborn in_cluster).1 = inr tt /\
  Webhook.host_given in_cluster = false /\
  let tr := (deploy_example stubborn in_cluster).2 in
  let hash := no_hash [] in
  exists wh,
    Webhook.mutatingWebhook in_cluster = inr wh /\
    (Called (readNamespace "pepr-system") None ∈ tr \/
     Called (createNamespace (Webhook.namespace in_cluster)) None ∈ tr) /\
    Called (createMutatingWebhookConfiguration wh) None ∈ tr /\
    (Called (readNamespacedNetworkPolicy (metadata_name (Webhook.networkPolicy in_cluster))
               "pepr-system") None ∈ tr \/
     Called (createNamespacedNetworkPolicy "pepr-system" (Webhook.networkPolicy in_cluster))
       None ∈ tr) /\
    Called (createClusterRoleBinding (Webhook.clusterRoleBinding in_cluster)) None ∈ tr /\
    Called (createNamespacedServiceAccount "pepr-system" (Webhook.serviceAccount in_cluster))
      None ∈ tr /\
    Called (createNamespacedSecret "pepr-system"
              (Webhook.moduleSecret no_gzip as_text in_cluster [] hash)) None ∈ tr /\
    Called (createNamespacedService "pepr-system" (Webhook.service in_cluster)) None ∈ tr /\
    Called (createNamespacedSecret "pepr-system" (Webhook.tlsSecret in_cluster)) None ∈ tr /\
    Called (createNamespacedDeployment "pepr-system" (Webhook.deployment in_cluster hash))
      None ∈ tr.
Proof.
  split; [vm_compute; reflexivity |]. split; [reflexivity |].
  apply (resolved_deploy_applied_the_manifests no_gzip as_text no_hash stubborn
           in_cluster []).
  - vm_compute. reflexivity.
  - reflexivity.
Defined.

Lemma deploy_at_a_host_only_registers_the_webhook_witness :
  Webhook.host_given at_host = true /\
  (forall call outcome,
     Called call outcome ∈ (deploy_example willing at_host).2 ->
     registers call = true) /\
  ((deploy_example willing at_host).1 = inr tt ->
   exists wh,
     Webhook.mutatingWebhook at_host = inr wh /\
     Called (createMutatingWebhookConfiguration wh) None ∈
       (deploy_example willing at_host).2).
Proof.
  split; [reflexivity |].
  apply (deploy_at_a_host_only_registers_the_webhook no_gzip as_text no_hash willing
           at_host []).
  reflexivity.
Defined.

Lemma missing_ignore_list_stops_deploy_after_the_namespace_witness :
  Webhook.alwaysIgnore_namespaces (Webhook.config unconfigured) = None /\
  let missing := TypeError "Cannot read properties of undefined (reading 'length')" in
  Webhook.allYaml no_gzip as_text no_hash (fun _ => "") unconfigured [] = inl missing /\
  (exists e,
     (deploy_example willing unconfigured).1 = inl e /\
     (e = missing \/
      Called (createNamespace (Webhook.namespace unconfigured)) (Some e) ∈
        (deploy_example willing unconfigured).2)) /\
  forall call outcome,
    Called call outcome ∈ (deploy_example willing unconfigured).2 ->
    call = readNamespace "pepr-system" \/
    call = createNamespace (Webhook.namespace unconfigured).
Proof.
  split; [reflexivity |].
  apply (missing_ignore_list_stops_deploy_after_the_namespace no_gzip as_text no_hash
           (fun _ => "") willing unconfigured []).
  reflexivity.
Defined.

(** The deployment is the fifteenth call of the run on the stubborn
    cluster. *)
Lemma deployment_is_created_after_what_it_refers_to_witness :
  let cs := api_calls (deploy_example stubborn in_cluster).2 in
  let before := take 14 cs in
  cs = before ++
       (createNamespacedDeployment "pepr-system"
          (Webhook.deployment in_cluster (no_hash [])), None) :: drop 15 cs /\
  ((readNamespace "pepr-system", None) ∈ before \/
   (createNamespace (Webhook.namespace in_cluster), None) ∈ before) /\
  (createNamespacedServiceAccount "pepr-system" (Webhook.serviceAccount in_cluster), None)
    ∈ before /\
  (createNamespacedSecret "pepr-system"
     (Webhook.moduleSecret no_gzip as_text in_cluster [] (no_hash [])), None) ∈ before /\
  (createNamespacedSecret "pepr-system" (Webhook.tlsSecret in_cluster), None) ∈ before.
Proof.
  intros cs before.
  assert (Hcs : cs = before ++
            (createNamespacedDeployment "pepr-system"
               (Webhook.deployment in_cluster (no_hash [])), None) :: drop 15 cs)
    by (vm_compute; reflexivity).
  split; [exact Hcs |].
  exact (deployment_is_created_after_what_it_refers_to no_gzip as_text no_hash stubborn
           in_cluster [] before "pepr-system"
           (Webhook.deployment in_cluster (no_hash [])) None (drop 15 cs) Hcs).
Defined.


(** On the stubborn cluster the run resolves although the cluster role was
    neither created nor deleted. *)
Lemma deploy_may_resolve_without_the_cluster_role :
  (deploy_example stubborn in_cluster).1 = inr tt /\
  List.filter (fun x => about_cluster_role x.1)
    (api_calls (deploy_example stubborn in_cluster).2) =
    [(createClusterRole (Webhook.clusterRole in_cluster), Some "409");
     (deleteClusterRole (metadata_name (Webhook.clusterRole in_cluster)), Some "403")].
Proof. split; vm_compute; reflexivity. Qed.

(** The twelfth call of the run on the stubborn cluster deletes the service,
    right after the create that failed. *)
Lemma deploy_deletes_only_what_it_failed_to_create_witness :
  let cs := api_calls (deploy_example stubborn in_cluster).2 in
  exists before c e,
    take 11 cs = before ++ [(c, Some e)] /\
    delete_of c =
      Some (deleteNamespacedService (metadata_name (Webhook.service in_cluster))
              "pepr-system").
Proof.
  intros cs.
  apply (deploy_deletes_only_what_it_failed_to_create no_gzip as_text no_hash stubborn
           in_cluster [] (take 11 cs)
           (deleteNamespacedService (metadata_name (Webhook.service in_cluster))
              "pepr-system")
           None (drop 12 cs)).
  - vm_compute. reflexivity.
  - reflexivity.
Defined.
